(** * MyPlant/app.py: the response parser and the image normaliser

    A shallow embedding of [process_gemini_response] and [prepare_image]
    from [MyPlant/app.py], with the properties the specification states
    about them.

    Python values are modelled as follows.
    - A [str] is its sequence of Unicode code points, each a [Z].
    - [plant_info] (a dict with three fixed literal keys) is a record; its
      ['care_instructions'] entry, a dict keyed by season names, is a
      [gmap] from [str] to lists of [str].
    - A Python exception is a value of [exn]; code that may raise returns a
      [result].
    - Python floats are IEEE 754 binary64 numbers, here the primitive
      [float] type. *)

From Stdlib Require Import ZArith List Bool Lia String Ascii Floats Uint63.
From stdpp Require Import base option list gmap.

Local Open Scope Z_scope.

(** ** Python strings *)

Abbreviation str := (list Z).

(** Code points of an ASCII literal. *)
Definition u (s : string) : str :=
  map (fun a => Z.of_N (N_of_ascii a)) (list_ascii_of_string s).

Definition LF : Z := 10.        (* '\n' *)
Definition SPACE : Z := 32.     (* ' ' *)
Definition COLON : Z := 58.     (* ':' *)
Definition BULLET : Z := 8226.  (* U+2022, the bullet marker *)

(** [str.isspace] on one code point: the code points CPython's
    [_PyUnicode_IsWhitespace] accepts, which [str.strip()] and
    [str.split()] without arguments remove. *)
Definition isspace (c : Z) : bool :=
  ((9 <=? c) && (c <=? 13)) || ((28 <=? c) && (c <=? 32))
  || (c =? 0x85) || (c =? 0xA0) || (c =? 0x1680)
  || ((0x2000 <=? c) && (c <=? 0x200A))
  || (c =? 0x2028) || (c =? 0x2029) || (c =? 0x202F) || (c =? 0x205F)
  || (c =? 0x3000).

(** [str.lower] on one code point.  Latin capital letters map to small
    ones, KELVIN SIGN (U+212A) maps to [k], and LATIN CAPITAL LETTER I WITH
    DOT ABOVE (U+0130) maps to [i] followed by COMBINING DOT ABOVE; these are
    the only code points whose lower-case form contains an ASCII code point
    other than themselves.  Every other cased code point maps to code points
    outside ASCII.  The parser only compares lower-cased text against ASCII
    patterns and never stores it, so the model leaves those code points as
    they are. *)
Definition lower_cp (c : Z) : str :=
  if (65 <=? c) && (c <=? 90) then [c + 32]
  else if c =? 0x212A then [107]
  else if c =? 0x130 then [105; 0x307]
  else [c].

Definition lower (s : str) : str := flat_map lower_cp s.

Fixpoint drop_while (p : Z -> bool) (s : str) : str :=
  match s with
  | [] => []
  | c :: s' => if p c then drop_while p s' else s
  end.

(** [s.lstrip()], [s.rstrip()], [s.strip()] *)
Definition lstrip (s : str) : str := drop_while isspace s.
Definition rstrip (s : str) : str := rev (drop_while isspace (rev s)).
Definition strip (s : str) : str := rstrip (lstrip s).

(** [s.lstrip(chars)] *)
Definition lstrip_chars (chars s : str) : str :=
  drop_while (fun c => existsb (Z.eqb c) chars) s.

(** [s.startswith(prefix)] *)
Fixpoint startswith (s prefix : str) {struct prefix} : bool :=
  match prefix, s with
  | [], _ => true
  | _ :: _, [] => false
  | p :: prefix', c :: s' => (c =? p) && startswith s' prefix'
  end.

(** [sub in s] *)
Fixpoint str_in (sub s : str) : bool :=
  startswith s sub ||
  match s with
  | [] => false
  | _ :: s' => str_in sub s'
  end.

(** [s.split(sep, maxsplit)] for a one-code-point separator; [maxsplit] is
    [None] when the argument is left out. *)
Fixpoint split (sep : Z) (maxsplit : option nat) (s : str) : list str :=
  match maxsplit, s with
  | Some O, _ => [s]
  | _, [] => [[]]
  | _, c :: s' =>
      if c =? sep then [] :: split sep (Nat.pred <$> maxsplit) s'
      else match split sep maxsplit s' with
           | w :: ws => (c :: w) :: ws
           | [] => [[c]]
           end
  end.

(** [s.split()]: the maximal runs of code points that are not whitespace. *)
Fixpoint split_ws (s : str) : list str :=
  match s with
  | [] => []
  | c :: s' =>
      if isspace c then split_ws s'
      else match s' with
           | [] => [[c]]
           | d :: _ =>
               if isspace d then [c] :: split_ws s'
               else match split_ws s' with
                    | w :: ws => (c :: w) :: ws
                    | [] => [[c]]
                    end
           end
  end.

(** Truth value of a string: [not line] is [negb (truthy line)]. *)
Definition truthy (s : str) : bool :=
  match s with [] => false | _ :: _ => true end.

(** ** Exceptions and results *)

(** An exception: its class and the text [str(e)] gives; [ExceptionFrom]
    is an exception raised from another one ([raise ... from cause]). *)
Inductive exn : Type :=
| Exception (cls : string) (msg : str)
| ExceptionFrom (cls : string) (msg : str) (cause : exn).

Definition exn_str (e : exn) : str :=
  match e with
  | Exception _ msg => msg
  | ExceptionFrom _ msg _ => msg
  end.

Definition IndexError : exn :=
  Exception "IndexError" (u "list index out of range").
(** [str] of a [KeyError] is the [repr] of the key: the key in single
    quotes, for a key without quotes, backslashes or control characters. *)
Definition KeyError (key : str) : exn :=
  Exception "KeyError" ([39] ++ key ++ [39]).
Definition ValueError (msg : str) : exn := Exception "ValueError" msg.
Definition OverflowError (msg : str) : exn := Exception "OverflowError" msg.
Definition ZeroDivisionError (msg : str) : exn :=
  Exception "ZeroDivisionError" msg.
Definition OSError (msg : str) : exn := Exception "OSError" msg.

Inductive result (A : Type) : Type :=
| Ok (a : A)
| Raise (e : exn).
Arguments Ok {A} a.
Arguments Raise {A} e.

#[global] Instance result_ret : MRet result := fun A a => Ok a.
#[global] Instance result_bind : MBind result := fun A B f r =>
  match r with
  | Ok a => f a
  | Raise e => Raise e
  end.

(** [l[i]] *)
Definition index {A} (l : list A) (i : nat) : result A :=
  match l !! i with
  | Some x => Ok x
  | None => Raise IndexError
  end.

(** [d[k]] on a dict *)
Definition getitem {V} (d : gmap str V) (k : str) : result V :=
  match d !! k with
  | Some v => Ok v
  | None => Raise (KeyError k)
  end.

(** [for x in xs: st = body(st, x)], stopping at the first exception. *)
Fixpoint for_each {S A} (body : S -> A -> result S) (st : S) (xs : list A)
  : result S :=
  match xs with
  | [] => Ok st
  | x :: xs' => st' ← body st x; for_each body st' xs'
  end.

(** ** The response parser *)

Record plant_info : Type := PlantInfo {
  common_name : str;
  hindi_name : str;
  care_instructions : gmap str (list str)
}.

Definition set_common_name (v : str) (p : plant_info) : plant_info :=
  PlantInfo v (hindi_name p) (care_instructions p).
Definition set_hindi_name (v : str) (p : plant_info) : plant_info :=
  PlantInfo (common_name p) v (care_instructions p).
Definition set_care_instructions (ci : gmap str (list str)) (p : plant_info)
  : plant_info :=
  PlantInfo (common_name p) (hindi_name p) ci.

Definition Spring : str := Eval cbv in u "Spring".
Definition Summer : str := Eval cbv in u "Summer".
Definition Monsoon : str := Eval cbv in u "Monsoon".
Definition Winter : str := Eval cbv in u "Winter".

(** The dict literal [process_gemini_response] starts from. *)
Definition initial_plant_info : plant_info :=
  {| common_name := u "Unknown";
     hindi_name := u "Not available";
     care_instructions :=
       {[ Spring := []; Summer := []; Monsoon := []; Winter := [] ]} |}.

(** The two list literals of the Hindi-name branch. *)
Definition hindi_phrases : list str :=
  [u "hindi name:"; u "hindi:"; u "in hindi:"].
Definition absent_names : list str :=
  [u "unknown"; u "not available"; u "n/a"; []].

(** The first three tests of the [if]/[elif] chain, on the stripped line. *)
Definition is_common_name_line (line : str) : bool :=
  startswith (lower line) (u "common name:").
Definition is_hindi_line (line : str) : bool :=
  existsb (fun phrase => str_in phrase (lower line)) hindi_phrases.
(** [any(line.startswith(f"{season} Care:") for season in care_instructions)] *)
Definition is_season_line (ci : gmap str (list str)) (line : str) : bool :=
  existsb (fun season => startswith line (season ++ u " Care:"))
          (elements (dom ci)).

(** One iteration of the loop over the lines; the state is [plant_info]
    together with [current_section]. *)
Definition parse_line (st : plant_info * option str) (raw : str)
  : result (plant_info * option str) :=
  let '(info, current_section) := st in
  let line := strip raw in
  if negb (truthy line) then Ok st
  else if is_common_name_line line then
    v ← index (split COLON (Some 1%nat) line) 1;
    Ok (set_common_name (strip v) info, current_section)
  else if is_hindi_line line then
    v ← index (split COLON (Some 1%nat) line) 1;
    let name := strip v in
    if bool_decide (lower name ∈ absent_names) then Ok st
    else Ok (set_hindi_name name info, current_section)
  else if is_season_line (care_instructions info) line then
    head ← index (split COLON None line) 0;
    season ← index (split_ws (strip head)) 0;
    Ok (info, Some season)
  else
    match current_section with
    | Some section =>
        if truthy section && startswith line [BULLET] then
          tips ← getitem (care_instructions info) section;
          let tip := strip (lstrip_chars [BULLET; SPACE] line) in
          Ok (set_care_instructions
                (<[section := tips ++ [tip]]> (care_instructions info)) info,
              current_section)
        else Ok st
    | None => Ok st
    end.

(** The loop, started from the initial dict and [current_section = None]. *)
Definition process_lines (lines : list str) : result (plant_info * option str) :=
  for_each parse_line (initial_plant_info, None) lines.

Definition process_gemini_response (response_text : str) : result plant_info :=
  st ← process_lines (split LF None response_text);
  Ok st.1.

(** ** The image normaliser *)

(** *** Python numbers *)

(** [float(n)] for an [int] in [0, 2^63); exact below [2^53].  The sides of a
    Pillow image are C ints, so below [2^31]. *)
Definition float_of_int (n : Z) : float := PrimFloat.of_uint63 (Uint63.of_Z n).

(** [a / b] on two [int]s: the correctly rounded quotient, which for
    operands below [2^53] is the quotient of the two conversions. *)
Definition true_div (a b : Z) : result float :=
  if b =? 0 then Raise (ZeroDivisionError (u "division by zero"))
  else Ok (float_of_int a / float_of_int b)%float.

(** [int(x)]: truncation towards zero. *)
Definition int_of_SF (x : spec_float) : result Z :=
  match x with
  | S754_zero _ => Ok 0
  | S754_finite s m e =>
      Ok (cond_Zopp s (if 0 <=? e then Zpos m * 2 ^ e else Zpos m / 2 ^ (- e)))
  | S754_infinity _ =>
      Raise (OverflowError (u "cannot convert float infinity to integer"))
  | S754_nan => Raise (ValueError (u "cannot convert float NaN to integer"))
  end.
Definition int_of_float (x : float) : result Z := int_of_SF (Prim2SF x).

(** *** Pillow, base64 and Streamlit *)

Inductive resample : Type := LANCZOS.

(** What [prepare_image] uses of a [PIL.Image.Image]: [image.size],
    [image.mode], [image.resize(size, resample)], [image.convert(mode)] and
    [image.save(buffer, format=..., quality=...)] followed by
    [buffer.getvalue()].  A resized image has the size asked for, and a
    converted image the size it had. *)
Class Pillow (image : Type) : Type := {
  im_size : image -> Z * Z;
  im_mode : image -> str;
  im_resize : image -> Z * Z -> resample -> result image;
  im_convert : image -> str -> result image;
  im_save : image -> str -> Z -> result (list Z);
  im_resize_size : forall im new_size filter im',
    im_resize im new_size filter = Ok im' -> im_size im' = new_size;
  im_convert_size : forall im mode im',
    im_convert im mode = Ok im' -> im_size im' = im_size im
}.

(** [base64.b64encode(data).decode('utf-8')] *)
Definition b64_char (n : Z) : Z :=
  if n <? 26 then 65 + n
  else if n <? 52 then 97 + (n - 26)
  else if n <? 62 then 48 + (n - 52)
  else if n =? 62 then 43 else 47.

Fixpoint b64encode (data : list Z) : str :=
  match data with
  | [] => []
  | [a] => [b64_char (a / 4); b64_char (a mod 4 * 16); 61; 61]
  | [a; b] =>
      [b64_char (a / 4); b64_char (a mod 4 * 16 + b / 16);
       b64_char (b mod 16 * 4); 61]
  | a :: b :: c :: rest =>
      [b64_char (a / 4); b64_char (a mod 4 * 16 + b / 16);
       b64_char (b mod 16 * 4 + c / 64); b64_char (c mod 64)]
      ++ b64encode rest
  end.

(** What [prepare_image] shows on the page. *)
Inductive ui_event : Type := st_error (msg : str).

(** *** [prepare_image] *)

(** The dict [prepare_image] returns. *)
Record image_data : Type := ImageData { mime_type : str; data : str }.

Definition max_size : Z := 300.

(** [ratio = max_size / max(image.size)] and
    [new_size = tuple(int(dim * ratio) for dim in image.size)] *)
Definition new_size (size : Z * Z) : result (Z * Z) :=
  ratio ← true_div max_size (Z.max size.1 size.2);
  w ← int_of_float (float_of_int size.1 * ratio);
  h ← int_of_float (float_of_int size.2 * ratio);
  Ok (w, h).

Section PrepareImage.
Context {image : Type} `{Pillow image}.

Definition resize_step (im : image) : result image :=
  if max_size <? Z.max (im_size im).1 (im_size im).2 then
    size ← new_size (im_size im);
    im_resize im size LANCZOS
  else Ok im.

Definition convert_step (im : image) : result image :=
  if bool_decide (im_mode im <> u "RGB") then im_convert im (u "RGB")
  else Ok im.

Definition encode_step (im : image) : result image_data :=
  image_bytes ← im_save im (u "JPEG") 50;
  Ok {| mime_type := u "image/jpeg"; data := b64encode image_bytes |}.

(** The body of the [try] block. *)
Definition prepare_image_try (im : image) : result image_data :=
  im ← resize_step im;
  im ← convert_step im;
  encode_step im.

(** The whole function: what it shows on the page, and how it ends; the
    [except Exception] clause turns every exception of the body into an
    error message and the return value [None]. *)
Definition prepare_image (im : image)
  : list ui_event * result (option image_data) :=
  match prepare_image_try im with
  | Ok d => ([], Ok (Some d))
  | Raise e =>
      ([st_error (u "Error processing image: " ++ exn_str e)], Ok None)
  end.
End PrepareImage.

(** Modelled from the spec: the typed error of the specification's error
    taxonomy, raised from the underlying cause.  The source defines no
    exception class of its own. *)
Definition ImagePreparationError (cause : exn) : exn :=
  ExceptionFrom "ImagePreparationError" (exn_str cause) cause.

(** *** A stand-in for Pillow, for the examples

    An image is its size, its mode and whether its file decodes.  Every
    operation that reads pixels fails on a file that does not decode, and
    [resize] refuses an empty target size, as Pillow does. *)
Record toy_image : Type := ToyImage {
  toy_size : Z * Z;
  toy_mode : str;
  toy_decodes : bool
}.

Definition toy_resize (im : toy_image) (size : Z * Z) (filter : resample)
  : result toy_image :=
  if negb (toy_decodes im) then Raise (OSError (u "image file is truncated"))
  else if (size.1 <? 1) || (size.2 <? 1) then
    Raise (ValueError (u "height and width must be > 0"))
  else Ok (ToyImage size (toy_mode im) true).

Definition toy_convert (im : toy_image) (mode : str) : result toy_image :=
  if negb (toy_decodes im) then Raise (OSError (u "image file is truncated"))
  else Ok (ToyImage (toy_size im) mode true).

(** The stand-in encoder writes the JPEG start marker and the two sides as
    16-bit numbers. *)
Definition toy_save (im : toy_image) (format : str) (quality : Z)
  : result (list Z) :=
  if negb (toy_decodes im) then Raise (OSError (u "image file is truncated"))
  else Ok [255; 216; (toy_size im).1 / 256; (toy_size im).1 mod 256;
           (toy_size im).2 / 256; (toy_size im).2 mod 256].

#[global, refine] Instance toy_pillow : Pillow toy_image := {|
  im_size := toy_size;
  im_mode := toy_mode;
  im_resize := toy_resize;
  im_convert := toy_convert;
  im_save := toy_save
|}.
Proof.
  - intros im size filter im'. unfold toy_resize.
    destruct (negb _); [discriminate|]. destruct (orb _ _); [discriminate|].
    intros [= <-]. reflexivity.
  - intros im mode im'. unfold toy_convert.
    destruct (negb _); [discriminate|]. intros [= <-]. reflexivity.
Defined.

Definition square_562 : toy_image := ToyImage (562, 562) (u "RGB") true.
Definition landscape_800 : toy_image := ToyImage (800, 600) (u "RGBA") true.
Definition small_image : toy_image := ToyImage (200, 120) (u "RGB") true.
Definition truncated_upload : toy_image := ToyImage (800, 600) (u "RGB") false.
Definition thin_strip : toy_image := ToyImage (1000, 1) (u "RGB") true.

(** *** Vocabulary for bounds on rounded numbers *)

Module Float64.
Definition inexact (mrs : shr_record) : bool := shr_r mrs || shr_s mrs.

(** The record stands for a number of at most [bound] units of the
    current exponent. *)
Definition below (mrs : shr_record) (bound : Z) : Prop :=
  0 <= shr_m mrs <= bound /\ (inexact mrs = true -> shr_m mrs < bound).

(** [bound_at Y E e] is [Y * 2^E] counted in units of [2^e]. *)
Definition bound_at (Y E e : Z) : Z := Y * 2 ^ (E - e).

(** The bound used for the ratio: the least multiple of [2^-32] above
    [300 / M], as a multiple of [2^-32]. *)
Definition ratio_bound (M : Z) : Z := 300 * 2 ^ 32 / M + 1.
End Float64.

(** ** Vocabulary of the specification *)

(** The four fixed season labels, as a list and as a key set. *)
Definition seasons : list str := [Spring; Summer; Monsoon; Winter].
Definition season_keys : gset str := {[Spring; Summer; Monsoon; Winter]}.

(** A line that begins with ["<Season> Care:"] for one of the four labels. *)
Definition is_season_header (line : str) : bool :=
  existsb (fun season => startswith line (season ++ u " Care:")) seasons.

(** A line that begins with the bullet marker, and the tip it carries. *)
Definition is_bullet_line (line : str) : bool := startswith line [BULLET].
Definition bullet_text (line : str) : str :=
  strip (lstrip_chars [BULLET; SPACE] line).

(** What holds of the loop state before and after every iteration: the
    season dict has the four keys, and [current_section], once set, is one
    of them. *)
Definition section_ok (cur : option str) : Prop :=
  forall s, cur = Some s -> s ∈ seasons.
Definition state_ok (st : plant_info * option str) : Prop :=
  dom (care_instructions st.1) = season_keys /\ section_ok st.2.

(** A line is recognized when its stripped form passes one of the four
    tests of the parser's [if]/[elif] chain. *)
Definition recognized (raw : str) : bool :=
  let line := strip raw in
  is_common_name_line line || is_hindi_line line
  || is_season_header line || is_bullet_line line.

(** A line the parser takes as a section header: it reaches the third test
    and passes it. *)
Definition is_section_header (raw : str) : bool :=
  let line := strip raw in
  negb (is_common_name_line line) && negb (is_hindi_line line)
  && is_season_header line.

(** A line the parser takes as a bullet when a section is current. *)
Definition is_tip_line (raw : str) : bool :=
  let line := strip raw in
  is_bullet_line line && negb (is_hindi_line line).

(** The effect of one iteration on a well-formed state, as the
    specification's algorithm lists it: one rule per branch. *)
Inductive step : plant_info * option str -> str -> plant_info * option str -> Prop :=
| step_common info cur raw :
    is_common_name_line (strip raw) = true ->
    step (info, cur) raw
         (set_common_name (strip (drop 12 (strip raw))) info, cur)
| step_hindi info cur raw before after :
    is_common_name_line (strip raw) = false ->
    is_hindi_line (strip raw) = true ->
    strip raw = before ++ COLON :: after -> (COLON ∉ before) ->
    step (info, cur) raw
         (if bool_decide (lower (strip after) ∈ absent_names) then info
          else set_hindi_name (strip after) info, cur)
| step_header info cur raw season :
    is_section_header raw = true ->
    season ∈ seasons ->
    startswith (strip raw) (season ++ u " Care:") = true ->
    step (info, cur) raw (info, Some season)
| step_tip info raw section tips :
    is_section_header raw = false ->
    is_tip_line raw = true ->
    care_instructions info !! section = Some tips ->
    step (info, Some section) raw
         (set_care_instructions
            (<[section := tips ++ [bullet_text (strip raw)]]>
               (care_instructions info)) info,
          Some section)
| step_ignored info cur raw :
    is_common_name_line (strip raw) = false ->
    is_hindi_line (strip raw) = false ->
    is_season_header (strip raw) = false ->
    cur = None \/ is_bullet_line (strip raw) = false ->
    step (info, cur) raw (info, cur).

(** ** Example inputs *)

Definition common_name_example : str :=
  u "Common Name: Rose" ++ [LF] ++ u "COMMON NAME:   " ++ [LF] ++ u "Spring Care:".

(** ["बरगद"] *)
Definition bargad : str := [0x92C; 0x930; 0x917; 0x926].

(** A common-name line that also mentions the Hindi name. *)
Definition common_name_with_hindi : str :=
  u "Common Name: Holy Basil (Hindi: Tulsi)".

(** Bullets before the first header. *)
Definition early_bullet_example : str :=
  u "* intro" ++ [LF; BULLET] ++ u " early tip" ++ [LF] ++ u "Summer Care:"
  ++ [LF; BULLET] ++ u " Water daily".

(** A Summer section whose first bullet mentions the Hindi name. *)
Definition summer_header : str := u "Summer Care:".
Definition hindi_bullet : str := BULLET :: u " Hindi: Tulsi".
Definition water_bullet : str := BULLET :: u " Water weekly".
Definition shade_bullet : str := BULLET :: u " Keep in shade ".
Definition summer_hindi_example : str :=
  summer_header ++ [LF] ++ hindi_bullet ++ [LF] ++ water_bullet.
Definition summer_example : str :=
  summer_header ++ [LF] ++ water_bullet ++ [LF; LF] ++ shade_bullet.


(** The Summer header twice, with a Winter section in between and a
    Monsoon section after. *)
Definition summer_twice_example : str :=
  summer_header ++ [LF] ++ water_bullet ++ [LF] ++ u "Winter Care:"
  ++ [LF] ++ BULLET :: u " Less water" ++ [LF] ++ summer_header
  ++ [LF] ++ shade_bullet ++ [LF] ++ u "Monsoon Care:"
  ++ [LF] ++ BULLET :: u " Check drainage".

(** A second Summer header that also gives the Hindi word for the season. *)
Definition hindi_summer_header : str := u "Summer Care: (in Hindi: Garmi)".
Definition hindi_header_example : str :=
  summer_header ++ [LF] ++ water_bullet ++ [LF] ++ u "Winter Care:"
  ++ [LF] ++ BULLET :: u " Less water" ++ [LF] ++ hindi_summer_header
  ++ [LF] ++ shade_bullet.

(** ** [display_plant_info] *)

(** Where a Streamlit call draws: on the page, in a column of
    [st.columns], or in a tab of [st.tabs]. *)
Inductive container : Type :=
| Page
| Column (i : nat)
| Tab (label : str).

(** The Streamlit calls of [display_plant_info], in the order made. *)
Inductive page_event : Type :=
| st_markdown (where_ : container) (body : str) (unsafe_allow_html : bool)
| st_columns (n : nat)
| st_tabs (labels : list str).

Definition DQUOTE : Z := 34.
Definition spaces (n : nat) : str := repeat SPACE n.

(** The f-string of the two name boxes: a line break, the box with its
    label and the value, each on a line of its own, indented as in the
    source. *)
Definition info_box (label value : str) : str :=
  [LF] ++ spaces 12 ++ u "<div class=" ++ [DQUOTE] ++ u "info-box" ++ [DQUOTE]
  ++ u ">" ++ [LF]
  ++ spaces 16 ++ u "<div class=" ++ [DQUOTE] ++ u "plant-name" ++ [DQUOTE]
  ++ u ">" ++ label ++ u "</div>" ++ [LF]
  ++ spaces 16 ++ value ++ [LF]
  ++ spaces 12 ++ u "</div>" ++ [LF]
  ++ spaces 12.

Definition results_heading : str :=
  u "### " ++ [0x1F331] ++ u " Plant Identification Results".
Definition tips_heading : str :=
  u "### " ++ [0x1F33F] ++ u " Seasonal Care Tips".
Definition tab_content_open : str :=
  u "<div class=" ++ [DQUOTE] ++ u "tab-content" ++ [DQUOTE] ++ u ">".
Definition tab_content_close : str := u "</div>".
Definition no_tips_message : str :=
  tab_content_open
  ++ u "No specific care tips available for this season. Adjust care based on your local climate conditions."
  ++ tab_content_close.

(** The body of [with tab:] once [tips] is read. *)
Definition tab_body (season : str) (tips : list str) : list page_event :=
  match tips with
  | [] => [st_markdown (Tab season) no_tips_message true]
  | _ :: _ =>
      [st_markdown (Tab season) tab_content_open true]
      ++ map (fun tip => st_markdown (Tab season) ([BULLET; SPACE] ++ tip) false)
             tips
      ++ [st_markdown (Tab season) tab_content_close true]
  end.

(** [for tab, season in zip(tabs, [...])]: the calls made until the loop
    ends or [plant_info['care_instructions'][season]] raises. *)
Fixpoint display_tabs (ci : gmap str (list str)) (labels : list str)
  : list page_event * result unit :=
  match labels with
  | [] => ([], Ok tt)
  | season :: rest =>
      match getitem ci season with
      | Raise e => ([], Raise e)
      | Ok tips =>
          let '(events, r) := display_tabs ci rest in
          (tab_body season tips ++ events, r)
      end
  end.

Definition display_plant_info (info : plant_info)
  : list page_event * result unit :=
  let '(events, r) := display_tabs (care_instructions info) seasons in
  ([st_markdown Page results_heading false;
    st_columns 2;
    st_markdown (Column 0) (info_box (u "Common Name") (common_name info)) true;
    st_markdown (Column 1) (info_box (u "Hindi Name") (hindi_name info)) true;
    st_markdown Page tips_heading false;
    st_tabs seasons] ++ events, r).

(** The calls of a page that draw in the tab [season]. *)
Definition in_tab (season : str) (e : page_event) : bool :=
  match e with
  | st_markdown (Tab label) _ _ => bool_decide (label = season)
  | _ => false
  end.

(** ** More vocabulary for the response parser *)

(** The text with every line feed preceded by a carriage return. *)
Definition to_crlf (text : str) : str :=
  flat_map (fun c => if c =? LF then [13; LF] else [c]) text.

(** The season a header line names. *)
Definition header_season (raw : str) : option str :=
  find (fun season => startswith (strip raw) (season ++ u " Care:")) seasons.

(** The tips of one season, read off the lines: the texts of the bullet
    lines whose nearest section header above them names the season. *)
Fixpoint collect (season : str) (cur : option str) (lines : list str)
  : list str :=
  match lines with
  | [] => []
  | raw :: rest =>
      if is_section_header raw then collect season (header_season raw) rest
      else if is_tip_line raw && bool_decide (cur = Some season) then
        bullet_text (strip raw) :: collect season cur rest
      else collect season cur rest
  end.

(** A text with no whitespace at either end and no line feed in it. *)
Definition tidy (t : str) : Prop := strip t = t /\ (LF ∉ t).

Definition tidy_info (info : plant_info) : Prop :=
  tidy (common_name info) /\ tidy (hindi_name info) /\
  forall season tips t,
    care_instructions info !! season = Some tips -> t ∈ tips -> tidy t.

(** ** [get_plant_info_prompt] *)

(** The string the function returns, line by line as the source has it. *)
Definition get_plant_info_prompt : str :=
  [LF]
  ++ spaces 4 ++ u "Analyze the provided plant image and give the following information:" ++ [LF]
  ++ spaces 4 ++ u "1. Common Name: Provide the most widely recognized common name for this plant." ++ [LF]
  ++ spaces 4 ++ u "2. Hindi Name: If there's a commonly used Hindi name, provide it. If not, state that there isn't a widely accepted Hindi name." ++ [LF]
  ++ spaces 4 ++ u "3. Seasonal Care Tips: Provide 2-3 specific care tips for each season (Spring, Summer, Monsoon, Winter). " ++ [LF]
  ++ spaces 7 ++ u "If a tip doesn't apply to a particular season, provide a general care tip instead." ++ [LF]
  ++ spaces 4 ++ [LF]
  ++ spaces 4 ++ u "Format your response like this:" ++ [LF]
  ++ spaces 4 ++ u "Common Name: [Plant's common name]" ++ [LF]
  ++ spaces 4 ++ u "Hindi Name: [Hindi name or statement about lack of common Hindi name]" ++ [LF]
  ++ spaces 4 ++ [LF]
  ++ spaces 4 ++ u "Spring Care:" ++ [LF]
  ++ spaces 4 ++ [BULLET] ++ u " [Tip 1]" ++ [LF]
  ++ spaces 4 ++ [BULLET] ++ u " [Tip 2]" ++ [LF]
  ++ spaces 4 ++ [BULLET] ++ u " [Tip 3]" ++ [LF]
  ++ spaces 4 ++ [LF]
  ++ spaces 4 ++ u "Summer Care:" ++ [LF]
  ++ spaces 4 ++ [BULLET] ++ u " [Tip 1]" ++ [LF]
  ++ spaces 4 ++ [BULLET] ++ u " [Tip 2]" ++ [LF]
  ++ spaces 4 ++ [BULLET] ++ u " [Tip 3]" ++ [LF]
  ++ spaces 4 ++ [LF]
  ++ spaces 4 ++ u "Monsoon Care:" ++ [LF]
  ++ spaces 4 ++ [BULLET] ++ u " [Tip 1]" ++ [LF]
  ++ spaces 4 ++ [BULLET] ++ u " [Tip 2]" ++ [LF]
  ++ spaces 4 ++ [BULLET] ++ u " [Tip 3]" ++ [LF]
  ++ spaces 4 ++ [LF]
  ++ spaces 4 ++ u "Winter Care:" ++ [LF]
  ++ spaces 4 ++ [BULLET] ++ u " [Tip 1]" ++ [LF]
  ++ spaces 4 ++ [BULLET] ++ u " [Tip 2]" ++ [LF]
  ++ spaces 4 ++ [BULLET] ++ u " [Tip 3]" ++ [LF]
  ++ spaces 4.

(** The format the prompt asks for, with values in the place of the
    bracketed placeholders: the two name lines, then for each season its
    header and one bullet line per tip, the blocks parted by an empty line. *)
Definition format_section (season : str) (tips : list str) : list str :=
  (season ++ u " Care:") :: map (fun tip => [BULLET; SPACE] ++ tip) tips.

Definition format_lines (cn hn : str) (sp su mo wi : list str) : list str :=
  [u "Common Name: " ++ cn; u "Hindi Name: " ++ hn; []]
  ++ format_section Spring sp ++ [[]]
  ++ format_section Summer su ++ [[]]
  ++ format_section Monsoon mo ++ [[]]
  ++ format_section Winter wi.

(** The lines that are not blank, without the whitespace around
    them. *)
Definition content_lines (lines : list str) : list str :=
  List.filter truthy (map strip lines).

(** A tip as the format can carry it: no whitespace at either end, no
    bullet marker in front, and none of the Hindi-name phrases in it. *)
Definition plain_tip (t : str) : Prop :=
  strip t = t /\ startswith t [BULLET] = false /\ is_hindi_line t = false.

(** What follows a label on its line: nothing, or a space and the value. *)
Definition after_label (t : str) : str :=
  match t with [] => [] | _ :: _ => SPACE :: t end.

(** The placeholders of the prompt. *)
Definition tip_placeholders : list str :=
  [u "[Tip 1]"; u "[Tip 2]"; u "[Tip 3]"].

(** The text after its first [n] lines. *)
Fixpoint skip_lines (n : nat) (s : str) : str :=
  match n, s with
  | O, _ => s
  | S n', c :: s' => if c =? LF then skip_lines n' s' else skip_lines n s'
  | S _, [] => []
  end.

(** The part of the prompt under ["Format your response like this:"]. *)
Definition prompt_format_block : str := skip_lines 8 get_plant_info_prompt.

(** ** Facts about the string primitives *)

Lemma startswith_spec (s prefix : str) :
  startswith s prefix = true <-> exists rest, s = prefix ++ rest.
Proof.
  revert s; induction prefix as [|p prefix IH]; intros s; simpl.
  - split; [exists s; reflexivity | reflexivity].
  - destruct s as [|c s]; simpl.
    + split; [discriminate | intros [r Hr]; discriminate].
    + rewrite andb_true_iff, Z.eqb_eq, IH. split.
      * intros [-> [r ->]]. exists r; reflexivity.
      * intros [r Hr]. injection Hr as -> ->. split; [reflexivity | exists r; reflexivity].
Qed.

Lemma str_in_spec (sub s : str) :
  str_in sub s = true <-> exists a b, s = a ++ sub ++ b.
Proof.
  induction s as [|c s IH]; simpl.
  - rewrite orb_false_r, startswith_spec. split.
    + intros [r Hr]. exists [], r. exact Hr.
    + intros [a [b Hab]]. destruct a; [exists b; exact Hab | discriminate].
  - rewrite orb_true_iff, startswith_spec, IH. split.
    + intros [[r Hr] | [a [b Hab]]].
      * exists [], r. exact Hr.
      * exists (c :: a), b. simpl. congruence.
    + intros [a [b Hab]]. destruct a as [|c' a]; simpl in Hab.
      * left. exists b. exact Hab.
      * right. exists a, b. congruence.
Qed.

Lemma lower_cp_colon (c : Z) : (COLON ∈ lower_cp c) -> c = COLON.
Proof.
  unfold lower_cp, COLON.
  destruct (andb _ _) eqn:E1; [|destruct (c =? 0x212A) eqn:E2; [|destruct (c =? 0x130) eqn:E3]];
    rewrite ?elem_of_cons, ?elem_of_nil; intros H; lia.
Qed.

Lemma lower_colon (s : str) : (COLON ∈ lower s) -> COLON ∈ s.
Proof.
  induction s as [|c s IH]; simpl; [trivial|].
  rewrite elem_of_app, elem_of_cons. intros [H | H].
  - left. symmetry. apply lower_cp_colon, H.
  - right. apply IH, H.
Qed.

Lemma split_first (sep : Z) (before after : str) :
  (sep ∉ before) ->
  split sep (Some 1%nat) (before ++ sep :: after) = [before; after].
Proof.
  induction before as [|c before IH]; simpl; intros Hnot.
  - rewrite Z.eqb_refl. destruct after; reflexivity.
  - apply not_elem_of_cons in Hnot as [Hc Hnot].
    destruct (Z.eqb_spec c sep) as [->|_]; [congruence|].
    rewrite (IH Hnot). reflexivity.
Qed.

Lemma str_in_elem (sub s : str) (c : Z) :
  str_in sub s = true -> (c ∈ sub) -> c ∈ s.
Proof.
  rewrite str_in_spec. intros (a & b & ->) Hc.
  rewrite !elem_of_app. auto.
Qed.

Lemma hindi_line_colon (line : str) :
  is_hindi_line line = true -> COLON ∈ line.
Proof.
  unfold is_hindi_line, hindi_phrases. simpl. rewrite !orb_true_iff.
  intros H. apply lower_colon.
  destruct H as [H | [H | [H | H]]]; [| | |discriminate];
    (eapply str_in_elem; [exact H|]);
    apply (bool_decide_unpack _); vm_compute; exact I.
Qed.

Lemma elem_of_season_keys (s : str) : s ∈ season_keys <-> s ∈ seasons.
Proof.
  unfold season_keys, seasons.
  rewrite !elem_of_union, !elem_of_singleton, !elem_of_cons, elem_of_nil.
  tauto.
Qed.

Lemma is_season_line_header (ci : gmap str (list str)) (line : str) :
  dom ci = season_keys -> is_season_line ci line = is_season_header line.
Proof.
  intros Hdom. unfold is_season_line, is_season_header.
  apply eq_iff_eq_true. rewrite !existsb_exists.
  split; intros (season & Hin & Hs); exists season; split; try exact Hs;
    apply list_elem_of_In; apply list_elem_of_In in Hin.
  - apply elem_of_elements in Hin. rewrite Hdom in Hin.
    apply elem_of_season_keys, Hin.
  - apply elem_of_elements. rewrite Hdom.
    apply elem_of_season_keys, Hin.
Qed.

Lemma season_header_inv (line : str) :
  is_season_header line = true ->
  exists season, season ∈ seasons /\ startswith line (season ++ u " Care:") = true.
Proof.
  unfold is_season_header. rewrite existsb_exists.
  intros (season & Hin & Hs). exists season. split; [|exact Hs].
  apply list_elem_of_In, Hin.
Qed.

(** [line.split(':')[0].strip().split()[0]] on a header line is the season. *)
Lemma season_of_header (line season : str) :
  season ∈ seasons ->
  startswith line (season ++ u " Care:") = true ->
  exists head,
    index (split COLON None line) 0 = Ok head /\
    index (split_ws (strip head)) 0 = Ok season.
Proof.
  intros Hin Hs. apply startswith_spec in Hs as [rest ->].
  unfold seasons in Hin. rewrite !elem_of_cons, elem_of_nil in Hin.
  destruct Hin as [-> | [-> | [-> | [-> | []]]]];
    eexists; (split; [reflexivity|]); reflexivity.
Qed.

(** *** The lower-cased prefix test of the first branch *)

Lemma lower_prefix_char (c p : Z) (s ps : str) :
  startswith (lower (c :: s)) (p :: ps) = true -> p <> 105 ->
  lower_cp c = [p] /\ startswith (lower s) ps = true.
Proof.
  unfold lower. cbn [flat_map]. unfold lower_cp.
  destruct (andb _ _); [|destruct (c =? 0x212A); [|destruct (c =? 0x130)]];
    cbn [app startswith]; rewrite andb_true_iff, Z.eqb_eq; intros [Hp Hs] Hne;
    try (subst p; split; [reflexivity | exact Hs]).
  congruence.
Qed.

Lemma lower_cp_single (c p : Z) :
  lower_cp c = [p] -> (c = COLON <-> p = COLON).
Proof.
  unfold lower_cp, COLON.
  destruct (andb _ _) eqn:E1; [|destruct (c =? 0x212A) eqn:E2; [|destruct (c =? 0x130) eqn:E3]];
    intros H; try discriminate H; injection H as <-; lia.
Qed.

(** A line whose lower-case form starts with ["common name:"] has its
    first colon at index 11. *)
Lemma common_name_line_shape (line : str) :
  is_common_name_line line = true ->
  exists before after,
    line = before ++ COLON :: after /\ (COLON ∉ before) /\ length before = 11%nat.
Proof.
  unfold is_common_name_line. intros H.
  set (p := u "common name:") in H. vm_compute in p. subst p.
  do 12 (destruct line as [|? line]; [discriminate H|];
         apply lower_prefix_char in H as [?%lower_cp_single H]; [|lia]).
  exists [z; z0; z1; z2; z3; z4; z5; z6; z7; z8; z9], line.
  unfold COLON in *.
  split; [|split; [|reflexivity]].
  - simpl. f_equal. repeat f_equal. lia.
  - rewrite !not_elem_of_cons. repeat split; try lia. apply not_elem_of_nil.
Qed.

Lemma common_name_value (line : str) :
  is_common_name_line line = true ->
  index (split COLON (Some 1%nat) line) 1 = Ok (drop 12 line).
Proof.
  intros H. apply common_name_line_shape in H as (before & after & -> & Hnot & Hlen).
  rewrite (split_first _ _ _ Hnot).
  do 12 (destruct before as [|? before]; try discriminate Hlen).
  reflexivity.
Qed.

(** *** One iteration of the loop, branch by branch *)

Lemma common_name_line_truthy (line : str) :
  is_common_name_line line = true -> truthy line = true.
Proof. destruct line; [discriminate | reflexivity]. Qed.

Lemma hindi_line_truthy (line : str) :
  is_hindi_line line = true -> truthy line = true.
Proof. destruct line; [discriminate | reflexivity]. Qed.

Lemma season_header_truthy (line : str) :
  is_season_header line = true -> truthy line = true.
Proof. destruct line; [discriminate | reflexivity]. Qed.

Lemma bullet_line_truthy (line : str) :
  is_bullet_line line = true -> truthy line = true.
Proof. destruct line; [discriminate | reflexivity]. Qed.

Lemma parse_line_common (info : plant_info) (cur : option str) (raw : str) :
  is_common_name_line (strip raw) = true ->
  parse_line (info, cur) raw
  = Ok (set_common_name (strip (drop 12 (strip raw))) info, cur).
Proof.
  intros H. unfold parse_line.
  rewrite (common_name_line_truthy _ H), H, (common_name_value _ H).
  reflexivity.
Qed.

Lemma parse_line_hindi (info : plant_info) (cur : option str)
      (raw before after : str) :
  is_common_name_line (strip raw) = false ->
  is_hindi_line (strip raw) = true ->
  strip raw = before ++ COLON :: after -> (COLON ∉ before) ->
  parse_line (info, cur) raw
  = Ok (if bool_decide (lower (strip after) ∈ absent_names) then info
        else set_hindi_name (strip after) info, cur).
Proof.
  intros Hc Hh Hline Hnot. unfold parse_line.
  rewrite (hindi_line_truthy _ Hh), Hc, Hh, Hline, (split_first _ _ _ Hnot).
  cbn. destruct (bool_decide _); reflexivity.
Qed.

Lemma parse_line_header (info : plant_info) (cur : option str)
      (raw season : str) :
  dom (care_instructions info) = season_keys ->
  is_common_name_line (strip raw) = false ->
  is_hindi_line (strip raw) = false ->
  season ∈ seasons ->
  startswith (strip raw) (season ++ u " Care:") = true ->
  parse_line (info, cur) raw = Ok (info, Some season).
Proof.
  intros Hdom Hc Hh Hin Hs. unfold parse_line.
  assert (Hhead : is_season_header (strip raw) = true).
  { unfold is_season_header. apply existsb_exists. exists season.
    split; [apply list_elem_of_In, Hin | exact Hs]. }
  rewrite (season_header_truthy _ Hhead), Hc, Hh.
  rewrite (is_season_line_header _ _ Hdom), Hhead.
  cbn [negb].
  destruct (season_of_header _ _ Hin Hs) as (head & -> & Hseason).
  cbn. rewrite Hseason. reflexivity.
Qed.

Lemma parse_line_bullet (info : plant_info) (raw section : str)
      (tips : list str) :
  dom (care_instructions info) = season_keys ->
  is_common_name_line (strip raw) = false ->
  is_hindi_line (strip raw) = false ->
  is_season_header (strip raw) = false ->
  is_bullet_line (strip raw) = true ->
  truthy section = true ->
  care_instructions info !! section = Some tips ->
  parse_line (info, Some section) raw
  = Ok (set_care_instructions
          (<[section := tips ++ [bullet_text (strip raw)]]>
             (care_instructions info)) info,
        Some section).
Proof.
  intros Hdom Hc Hh Hs Hb Ht Hl. unfold parse_line.
  rewrite (bullet_line_truthy _ Hb), Hc, Hh.
  rewrite (is_season_line_header _ _ Hdom), Hs.
  unfold is_bullet_line in Hb. rewrite Ht, Hb. cbn [negb andb].
  unfold getitem. rewrite Hl. reflexivity.
Qed.

Lemma parse_line_ignored (info : plant_info) (cur : option str) (raw : str) :
  dom (care_instructions info) = season_keys ->
  is_common_name_line (strip raw) = false ->
  is_hindi_line (strip raw) = false ->
  is_season_header (strip raw) = false ->
  cur = None \/ is_bullet_line (strip raw) = false ->
  parse_line (info, cur) raw = Ok (info, cur).
Proof.
  intros Hdom Hc Hh Hs Hb. unfold parse_line.
  rewrite Hc, Hh, (is_season_line_header _ _ Hdom), Hs.
  destruct (negb _); [reflexivity|].
  destruct Hb as [-> | Hb]; [reflexivity|].
  destruct cur as [section|]; [|reflexivity].
  unfold is_bullet_line in Hb. rewrite Hb, andb_false_r. reflexivity.
Qed.

Lemma season_truthy (season : str) : season ∈ seasons -> truthy season = true.
Proof.
  unfold seasons. rewrite !elem_of_cons, elem_of_nil.
  intros [-> | [-> | [-> | [-> | []]]]]; reflexivity.
Qed.

Lemma season_lookup (ci : gmap str (list str)) (season : str) :
  dom ci = season_keys -> season ∈ seasons -> exists tips, ci !! season = Some tips.
Proof.
  intros Hdom Hin. apply elem_of_season_keys in Hin. rewrite <- Hdom in Hin.
  apply elem_of_dom in Hin as [tips Htips]. exists tips. exact Htips.
Qed.

Lemma season_insert_dom (ci : gmap str (list str)) (season : str) (tips : list str) :
  dom ci = season_keys -> season ∈ seasons ->
  dom (<[season := tips]> ci) = season_keys.
Proof.
  intros Hdom Hin. rewrite dom_insert_L, Hdom.
  apply elem_of_season_keys in Hin.
  apply leibniz_equiv, subseteq_union_1, singleton_subseteq_l, Hin.
Qed.

Lemma bullet_line_not_common (line : str) :
  is_bullet_line line = true -> is_common_name_line line = false.
Proof.
  unfold is_bullet_line. rewrite startswith_spec. intros [rest ->]. reflexivity.
Qed.

Lemma bullet_line_not_header (line : str) :
  is_bullet_line line = true -> is_season_header line = false.
Proof.
  unfold is_bullet_line. rewrite startswith_spec. intros [rest ->]. reflexivity.
Qed.

(** Every iteration returns, does what [step] says, and keeps the state
    well formed. *)
Lemma parse_line_step (st : plant_info * option str) (raw : str) :
  state_ok st ->
  exists st', parse_line st raw = Ok st' /\ step st raw st' /\ state_ok st'.
Proof.
  destruct st as [info cur]. intros [Hdom Hcur]. simpl in Hdom, Hcur.
  destruct (is_common_name_line (strip raw)) eqn:Hc.
  { eexists. split; [apply parse_line_common, Hc|].
    split; [apply step_common, Hc | split; assumption]. }
  destruct (is_hindi_line (strip raw)) eqn:Hh.
  { pose proof (hindi_line_colon _ Hh) as Hin.
    apply list_elem_of_split_l in Hin as (before & after & Hline & Hnot).
    eexists. split; [apply (parse_line_hindi _ _ _ _ _ Hc Hh Hline Hnot)|].
    split; [apply (step_hindi _ _ _ before after); assumption|].
    destruct (bool_decide _); split; assumption. }
  destruct (is_season_header (strip raw)) eqn:Hs.
  { destruct (season_header_inv _ Hs) as (season & Hin & Hstart).
    eexists. split; [apply (parse_line_header _ _ _ _ Hdom Hc Hh Hin Hstart)|].
    split; [apply step_header; try assumption;
            unfold is_section_header; rewrite Hc, Hh, Hs; reflexivity|].
    split; [assumption|]. intros s [= <-]. exact Hin. }
  assert (Hnh : is_section_header raw = false)
    by (unfold is_section_header; rewrite Hs; apply andb_false_r).
  destruct cur as [section|]; [destruct (is_bullet_line (strip raw)) eqn:Hb|].
  - assert (Hin : section ∈ seasons) by (apply Hcur; reflexivity).
    destruct (season_lookup _ _ Hdom Hin) as [tips Htips].
    eexists. split.
    + apply (parse_line_bullet _ _ _ _ Hdom Hc Hh Hs Hb (season_truthy _ Hin) Htips).
    + split; [apply step_tip; try assumption;
              unfold is_tip_line; rewrite Hb, Hh; reflexivity|].
      split; [|assumption]. simpl. apply season_insert_dom; assumption.
  - eexists. split; [apply parse_line_ignored; auto|].
    split; [apply step_ignored; auto | split; assumption].
  - eexists. split; [apply parse_line_ignored; auto|].
    split; [apply step_ignored; auto | split; assumption].
Qed.

Lemma parse_line_ok (st : plant_info * option str) (raw : str) :
  state_ok st -> exists st', parse_line st raw = Ok st' /\ state_ok st'.
Proof.
  intros Hst. destruct (parse_line_step st raw Hst) as (st' & H & _ & Hok).
  exists st'. auto.
Qed.

Lemma for_each_app {S A} (body : S -> A -> result S) (st : S) (xs ys : list A) :
  for_each body st (xs ++ ys) = (st' ← for_each body st xs; for_each body st' ys).
Proof.
  revert st; induction xs as [|x xs IH]; intros st; simpl; [reflexivity|].
  destruct (body st x) as [st'|e]; simpl; [apply IH | reflexivity].
Qed.

Lemma for_each_inv {S A} (body : S -> A -> result S) (P : S -> Prop) :
  (forall st x, P st -> exists st', body st x = Ok st' /\ P st') ->
  forall xs st, P st -> exists st', for_each body st xs = Ok st' /\ P st'.
Proof.
  intros Hbody. induction xs as [|x xs IH]; intros st Hst; simpl.
  - exists st. auto.
  - destruct (Hbody st x Hst) as (st1 & -> & Hst1). simpl. apply IH, Hst1.
Qed.

Lemma initial_dom : dom (care_instructions initial_plant_info) = season_keys.
Proof. vm_compute. reflexivity. Qed.

Lemma initial_state_ok : state_ok (initial_plant_info, None).
Proof. split; [exact initial_dom | intros s [=]]. Qed.

Lemma run_ok (st : plant_info * option str) (lines : list str) :
  state_ok st -> exists st', for_each parse_line st lines = Ok st' /\ state_ok st'.
Proof. apply for_each_inv. intros st0 x. apply parse_line_ok. Qed.

Lemma parse_line_unrecognized (st : plant_info * option str) (raw : str) :
  state_ok st -> recognized raw = false -> parse_line st raw = Ok st.
Proof.
  destruct st as [info cur]. intros [Hdom _]. unfold recognized.
  rewrite !orb_false_iff. intros [[[Hc Hh] Hs] Hb].
  apply parse_line_ignored; auto.
Qed.

Lemma run_unrecognized (st : plant_info * option str) (lines : list str) :
  state_ok st -> (forall raw, raw ∈ lines -> recognized raw = false) ->
  for_each parse_line st lines = Ok st.
Proof.
  intros Hst. induction lines as [|raw lines IH]; intros Hall; simpl; [reflexivity|].
  rewrite (parse_line_unrecognized _ _ Hst); [|apply Hall; left].
  simpl. apply IH. intros r Hr. apply Hall. right. exact Hr.
Qed.

(** C1: the parser is total, and on input none of whose lines matches a
    recognized pattern (the empty string included) it returns the all-default
    record: ["Unknown"], ["Not available"], four empty tip lists. *)
Theorem process_gemini_response_total (text : str) :
  exists info,
    process_gemini_response text = Ok info /\
    ((forall raw, raw ∈ split LF None text -> recognized raw = false) ->
     info = initial_plant_info).
Proof.
  unfold process_gemini_response, process_lines.
  destruct (run_ok _ (split LF None text) initial_state_ok) as ([info cur] & Hrun & _).
  exists info. rewrite Hrun. split; [reflexivity|].
  intros Hall. rewrite (run_unrecognized _ _ initial_state_ok Hall) in Hrun.
  congruence.
Qed.

Lemma process_gemini_response_total_witness :
  exists info,
    process_gemini_response (u "I cannot identify this plant.") = Ok info /\
    info = initial_plant_info.
Proof.
  destruct (process_gemini_response_total (u "I cannot identify this plant."))
    as (info & Hrun & Hdefault).
  exists info. split; [exact Hrun|]. apply Hdefault.
  intros raw Hraw. vm_compute in Hraw.
  apply list_elem_of_singleton in Hraw. subst raw. vm_compute. reflexivity.
Defined.

(** C2: whatever the input, the result's care-instructions dict has exactly
    the keys Spring, Summer, Monsoon and Winter. *)
Theorem care_instructions_keys (text : str) :
  exists info,
    process_gemini_response text = Ok info /\
    dom (care_instructions info) = {[Spring; Summer; Monsoon; Winter]}.
Proof.
  unfold process_gemini_response, process_lines.
  destruct (run_ok _ (split LF None text) initial_state_ok) as ([info cur] & Hrun & Hdom & _).
  exists info. rewrite Hrun. split; [reflexivity | exact Hdom].
Qed.

(** *** Runs of lines *)

Lemma run_filter_recognized (st : plant_info * option str) (lines : list str) :
  state_ok st ->
  for_each parse_line st lines
  = for_each parse_line st (List.filter recognized lines).
Proof.
  revert st; induction lines as [|raw lines IH]; intros st Hst; simpl; [reflexivity|].
  destruct (recognized raw) eqn:Hr; simpl.
  - destruct (parse_line_ok st raw Hst) as (st' & -> & Hst'). simpl. apply IH, Hst'.
  - rewrite (parse_line_unrecognized _ _ Hst Hr). simpl. apply IH, Hst.
Qed.

Lemma set_care_instructions_id (info : plant_info) :
  set_care_instructions (care_instructions info) info = info.
Proof. destruct info; reflexivity. Qed.

(** Bullet lines under a current section are appended to its list, in order. *)
Lemma run_tips (bs : list str) (info : plant_info) (section : str)
      (tips : list str) :
  dom (care_instructions info) = season_keys ->
  section ∈ seasons ->
  care_instructions info !! section = Some tips ->
  (forall b, b ∈ bs -> is_tip_line b = true) ->
  for_each parse_line (info, Some section) bs
  = Ok (set_care_instructions
          (<[section := tips ++ map (fun b => bullet_text (strip b)) bs]>
             (care_instructions info)) info,
        Some section).
Proof.
  revert info tips. induction bs as [|b bs IH]; intros info tips Hdom Hin Htips Hall.
  - simpl. rewrite app_nil_r, (insert_id _ _ _ Htips), set_care_instructions_id.
    reflexivity.
  - assert (Hb : is_tip_line b = true) by (apply Hall; left).
    unfold is_tip_line in Hb. apply andb_true_iff in Hb as [Hb Hh].
    apply negb_true_iff in Hh.
    cbn [for_each].
    rewrite (parse_line_bullet _ _ _ _ Hdom (bullet_line_not_common _ Hb) Hh
               (bullet_line_not_header _ Hb) Hb (season_truthy _ Hin) Htips).
    cbn [mbind result_bind].
    rewrite (IH _ (tips ++ [bullet_text (strip b)])).
    + cbn. rewrite insert_insert_eq, <- app_assoc. reflexivity.
    + cbn. apply season_insert_dom; assumption.
    + exact Hin.
    + cbn. apply lookup_insert_eq.
    + intros b' Hb'. apply Hall. right. exact Hb'.
Qed.

(** Tip lists only grow: one iteration leaves every list as it is or
    appends to it. *)
Lemma step_grows (st st' : plant_info * option str) (raw season : str)
      (tips : list str) :
  step st raw st' ->
  care_instructions st.1 !! season = Some tips ->
  exists added, care_instructions st'.1 !! season = Some (tips ++ added).
Proof.
  intros Hstep Htips. inversion Hstep; subst; simpl in *.
  - exists []. rewrite app_nil_r. exact Htips.
  - exists []. rewrite app_nil_r. destruct (bool_decide _); exact Htips.
  - exists []. rewrite app_nil_r. exact Htips.
  - destruct (decide (section = season)) as [->|Hne].
    + rewrite lookup_insert_eq. eexists. replace tips with tips0 by congruence.
      reflexivity.
    + rewrite lookup_insert_ne by exact Hne. exists []. rewrite app_nil_r. exact Htips.
  - exists []. rewrite app_nil_r. exact Htips.
Qed.

Lemma run_grows (lines : list str) (st : plant_info * option str)
      (season : str) (tips : list str) :
  state_ok st ->
  care_instructions st.1 !! season = Some tips ->
  exists st' added,
    for_each parse_line st lines = Ok st' /\ state_ok st' /\
    care_instructions st'.1 !! season = Some (tips ++ added).
Proof.
  revert st tips. induction lines as [|raw lines IH]; intros st tips Hst Htips.
  - exists st, []. rewrite app_nil_r. auto.
  - destruct (parse_line_step st raw Hst) as (st1 & Hrun & Hstep & Hst1).
    destruct (step_grows _ _ _ _ _ Hstep Htips) as [a1 Ha1].
    destruct (IH st1 _ Hst1 Ha1) as (st' & a2 & Hrun' & Hst' & Ha2).
    exists st', (a1 ++ a2). simpl. rewrite Hrun. simpl.
    rewrite app_assoc. auto.
Qed.

(** Lines that are not common-name lines leave [common_name] alone. *)
Lemma step_keeps_common_name (st st' : plant_info * option str) (raw : str) :
  step st raw st' -> is_common_name_line (strip raw) = false ->
  common_name st'.1 = common_name st.1.
Proof.
  intros Hstep Hc. inversion Hstep; subst; simpl; try reflexivity.
  - congruence.
  - destruct (bool_decide _); reflexivity.
Qed.

Lemma run_keeps_common_name (lines : list str) (st : plant_info * option str) :
  state_ok st ->
  (forall r, r ∈ lines -> is_common_name_line (strip r) = false) ->
  exists st', for_each parse_line st lines = Ok st' /\
              common_name st'.1 = common_name st.1.
Proof.
  revert st. induction lines as [|raw lines IH]; intros st Hst Hall.
  - exists st. auto.
  - destruct (parse_line_step st raw Hst) as (st1 & Hrun & Hstep & Hst1).
    destruct (IH st1 Hst1) as (st' & Hrun' & Hname).
    { intros r Hr. apply Hall. right. exact Hr. }
    exists st'. simpl. rewrite Hrun. simpl. split; [exact Hrun'|].
    rewrite Hname. apply (step_keeps_common_name _ _ _ Hstep). apply Hall. left.
Qed.

(** Lines that do not reach the Hindi-name branch leave [hindi_name] alone. *)
Lemma step_keeps_hindi_name (st st' : plant_info * option str) (raw : str) :
  step st raw st' ->
  is_common_name_line (strip raw) = true \/ is_hindi_line (strip raw) = false ->
  hindi_name st'.1 = hindi_name st.1.
Proof.
  intros Hstep Hc. inversion Hstep; subst; simpl; try reflexivity.
  destruct Hc; congruence.
Qed.

Lemma run_keeps_hindi_name (lines : list str) (st : plant_info * option str) :
  state_ok st ->
  (forall r, r ∈ lines ->
     is_common_name_line (strip r) = true \/ is_hindi_line (strip r) = false) ->
  exists st', for_each parse_line st lines = Ok st' /\
              hindi_name st'.1 = hindi_name st.1.
Proof.
  revert st. induction lines as [|raw lines IH]; intros st Hst Hall.
  - exists st. auto.
  - destruct (parse_line_step st raw Hst) as (st1 & Hrun & Hstep & Hst1).
    destruct (IH st1 Hst1) as (st' & Hrun' & Hname).
    { intros r Hr. apply Hall. right. exact Hr. }
    exists st'. simpl. rewrite Hrun. simpl. split; [exact Hrun'|].
    rewrite Hname. apply (step_keeps_hindi_name _ _ _ Hstep). apply Hall. left.
Qed.

Lemma strip_all_space (s : str) :
  (forall c, c ∈ s -> isspace c = true) -> strip s = [].
Proof.
  intros Hall. unfold strip, lstrip.
  assert (Hdrop : drop_while isspace s = []).
  { induction s as [|c s IH]; [reflexivity|]. simpl.
    rewrite (Hall c) by left. apply IH. intros d Hd. apply Hall. right. exact Hd. }
  rewrite Hdrop. reflexivity.
Qed.

(** ** What [bullet_text] strips *)

Lemma drop_while_length (p : Z -> bool) (s : str) :
  (length (drop_while p s) <= length s)%nat.
Proof.
  induction s as [|c s IH]; simpl; [lia|]. destruct (p c); simpl; lia.
Qed.

Lemma strip_length (s : str) : (length (strip s) <= length s)%nat.
Proof.
  unfold strip, rstrip, lstrip. rewrite length_rev.
  etransitivity; [apply drop_while_length|]. rewrite length_rev.
  apply drop_while_length.
Qed.

Lemma lstrip_pad (pad t : str) :
  (forall c, c ∈ pad -> isspace c = true) -> lstrip (pad ++ t) = lstrip t.
Proof.
  unfold lstrip. induction pad as [|c pad IH]; intros Hpad; simpl; [reflexivity|].
  rewrite (Hpad c) by left. apply IH. intros d Hd. apply Hpad. right. exact Hd.
Qed.

Lemma stripped_head (c : Z) (t : str) :
  strip (c :: t) = c :: t -> isspace c = false.
Proof.
  intros Hfix. destruct (isspace c) eqn:Hc; [|reflexivity].
  pose proof (strip_length t) as Hlen.
  assert (Heq : strip (c :: t) = strip t).
  { unfold strip, lstrip. simpl. rewrite Hc. reflexivity. }
  rewrite Heq in Hfix. rewrite Hfix in Hlen. simpl in Hlen. lia.
Qed.

(** On a line made of the marker, whitespace, and a text [t] that has no
    whitespace at either end and does not itself begin with the marker,
    [bullet_text] is [t]. *)
Lemma bullet_text_marker (pad t : str) :
  (forall c, c ∈ pad -> isspace c = true) ->
  strip t = t -> startswith t [BULLET] = false ->
  bullet_text (BULLET :: pad ++ t) = t.
Proof.
  intros Hpad Hfix Hmark. unfold bullet_text, lstrip_chars.
  set (P := fun c => existsb (Z.eqb c) [BULLET; SPACE]).
  assert (HB : P BULLET = true) by reflexivity.
  cbn [drop_while]. rewrite HB.
  assert (Hrest : exists pad',
             drop_while P (pad ++ t) = pad' ++ t /\
             forall c, c ∈ pad' -> isspace c = true).
  { induction pad as [|c pad IH]; cbn [app drop_while].
    - exists []. split; [|intros c Hc; apply elem_of_nil in Hc; destruct Hc].
      destruct t as [|c t]; [reflexivity|]. cbn [drop_while app].
      pose proof (stripped_head _ _ Hfix) as Hc.
      cbn [startswith] in Hmark. rewrite andb_true_r in Hmark.
      assert (HP : P c = false).
      { unfold P. cbn [existsb]. rewrite Hmark, orb_false_r. cbn [orb].
        destruct (Z.eqb_spec c SPACE) as [->|_]; [discriminate Hc | reflexivity]. }
      rewrite HP. reflexivity.
    - destruct (P c).
      + apply IH. intros d Hd. apply Hpad. right. exact Hd.
      + exists (c :: pad). split; [reflexivity | exact Hpad]. }
  destruct Hrest as (pad' & -> & Hpad').
  unfold strip. rewrite (lstrip_pad _ _ Hpad'). exact Hfix.
Qed.

(** ** The response parser: common name and Hindi name *)

(** C10: a line whose stripped lower-case form starts with ["common name:"]
    always overwrites [common_name] with the stripped text after the label
    (the twelve code points up to the colon), whatever the previous value, so
    the last such line of the input decides the result; nothing is
    suppressed, and when only whitespace follows the colon the result is the
    empty string. *)
Theorem common_name_last_line_wins (text raw : str) (pre post : list str) :
  split LF None text = pre ++ raw :: post ->
  is_common_name_line (strip raw) = true ->
  (forall r, r ∈ post -> is_common_name_line (strip r) = false) ->
  exists info,
    process_gemini_response text = Ok info /\
    common_name info = strip (drop 12 (strip raw)) /\
    ((forall c, c ∈ drop 12 (strip raw) -> isspace c = true) ->
     common_name info = []).
Proof.
  intros Hlines Hc Hpost.
  unfold process_gemini_response, process_lines. rewrite Hlines, for_each_app.
  destruct (run_ok _ pre initial_state_ok) as ([info0 cur0] & -> & Hok0).
  cbn [mbind result_bind for_each]. rewrite (parse_line_common _ _ _ Hc).
  cbn [mbind result_bind].
  destruct (run_keeps_common_name post
              (set_common_name (strip (drop 12 (strip raw))) info0, cur0))
    as ([info cur] & -> & Hname).
  { destruct Hok0 as [Hdom Hcur]. split; assumption. }
  { exact Hpost. }
  exists info. simpl in *. split; [reflexivity|]. split; [exact Hname|].
  intros Hws. rewrite Hname. apply strip_all_space, Hws.
Qed.

Lemma common_name_last_line_wins_witness :
  exists info,
    process_gemini_response common_name_example = Ok info /\
    common_name info = [].
Proof.
  destruct (common_name_last_line_wins common_name_example
              (u "COMMON NAME:   ") [u "Common Name: Rose"] [u "Spring Care:"])
    as (info & Hrun & _ & Hempty).
  - vm_compute. reflexivity.
  - vm_compute. reflexivity.
  - intros r Hr. apply list_elem_of_singleton in Hr. subst r. vm_compute. reflexivity.
  - exists info. split; [exact Hrun|]. apply Hempty.
    intros c Hc. vm_compute in Hc. apply elem_of_nil in Hc. destruct Hc.
Defined.

(** C7, as the code has it: a line that matches a Hindi-name phrase and does
    not start with ["common name:"] assigns the stripped text after its first
    colon to [hindi_name] exactly when the lower-cased value is none of
    ["unknown"], ["not available"], ["n/a"] and the empty string; the last
    such line of the input decides the result, and when it carries a
    sentinel and no such line precedes it, [hindi_name] is still
    ["Not available"]. *)
Theorem hindi_name_unless_absent (text raw before after : str)
        (pre post : list str) :
  split LF None text = pre ++ raw :: post ->
  is_common_name_line (strip raw) = false ->
  is_hindi_line (strip raw) = true ->
  strip raw = before ++ COLON :: after -> (COLON ∉ before) ->
  (forall r, r ∈ post ->
     is_common_name_line (strip r) = true \/ is_hindi_line (strip r) = false) ->
  exists info0 cur0 info,
    process_lines pre = Ok (info0, cur0) /\
    process_gemini_response text = Ok info /\
    hindi_name info
    = (if bool_decide (lower (strip after) ∈ absent_names)
       then hindi_name info0 else strip after) /\
    ((forall r, r ∈ pre ->
        is_common_name_line (strip r) = true \/ is_hindi_line (strip r) = false) ->
     hindi_name info0 = u "Not available").
Proof.
  intros Hlines Hc Hh Hline Hnot Hpost.
  destruct (run_ok _ pre initial_state_ok) as ([info0 cur0] & Hpre & Hok0).
  assert (Hrun : for_each parse_line (initial_plant_info, None) (pre ++ raw :: post)
                 = (st ← for_each parse_line
                           (if bool_decide (lower (strip after) ∈ absent_names)
                            then info0 else set_hindi_name (strip after) info0,
                            cur0) post;
                    Ok st)).
  { rewrite for_each_app, Hpre. cbn [mbind result_bind for_each].
    rewrite (parse_line_hindi _ _ _ _ _ Hc Hh Hline Hnot).
    cbn [mbind result_bind]. destruct (for_each _ _ post); reflexivity. }
  match type of Hrun with context [for_each parse_line ?st post] =>
    destruct (run_keeps_hindi_name post st) as ([info cur] & Hpost' & Hname)
  end.
  { destruct Hok0 as [Hdom Hcur]. destruct (bool_decide _); split; assumption. }
  { exact Hpost. }
  rewrite Hpost' in Hrun. cbn [mbind result_bind] in Hrun.
  exists info0, cur0, info. split; [exact Hpre|]. split; [|split].
  - unfold process_gemini_response, process_lines. rewrite Hlines, Hrun. reflexivity.
  - simpl in Hname. rewrite Hname. destruct (bool_decide _); reflexivity.
  - intros Hpre_plain.
    destruct (run_keeps_hindi_name pre _ initial_state_ok Hpre_plain)
      as (st & Hpre' & Hdefault).
    rewrite Hpre in Hpre'. injection Hpre' as <-. exact Hdefault.
Qed.

Lemma hindi_name_unless_absent_witness :
  (exists info,
     process_gemini_response (u "Hindi Name: " ++ bargad) = Ok info /\
     hindi_name info = bargad) /\
  (exists info,
     process_gemini_response (u "Hindi Name: n/a") = Ok info /\
     hindi_name info = u "Not available").
Proof.
  split.
  - destruct (hindi_name_unless_absent (u "Hindi Name: " ++ bargad)
                (u "Hindi Name: " ++ bargad) (u "Hindi Name") (SPACE :: bargad)
                [] [])
      as (info0 & cur0 & info & _ & Hrun & Hname & _).
    + vm_compute. reflexivity.
    + vm_compute. reflexivity.
    + vm_compute. reflexivity.
    + vm_compute. reflexivity.
    + apply (bool_decide_unpack _). vm_compute. exact I.
    + intros r Hr. apply elem_of_nil in Hr. destruct Hr.
    + exists info. split; [exact Hrun|]. rewrite Hname. vm_compute. reflexivity.
  - destruct (hindi_name_unless_absent (u "Hindi Name: n/a")
                (u "Hindi Name: n/a") (u "Hindi Name") (u " n/a") [] [])
      as (info0 & cur0 & info & _ & Hrun & Hname & Hdefault).
    + vm_compute. reflexivity.
    + vm_compute. reflexivity.
    + vm_compute. reflexivity.
    + vm_compute. reflexivity.
    + apply (bool_decide_unpack _). vm_compute. exact I.
    + intros r Hr. apply elem_of_nil in Hr. destruct Hr.
    + exists info. split; [exact Hrun|]. rewrite Hname, Hdefault.
      * vm_compute. reflexivity.
      * intros r Hr. apply elem_of_nil in Hr. destruct Hr.
Defined.

(** C7 as stated fails on a line that matches a Hindi-name phrase but starts
    with ["common name:"]: the first branch takes it, the text after the
    first colon goes to [common_name], and [hindi_name] keeps its default
    although that text is none of the absent-name sentinels. *)
Lemma hindi_phrase_in_common_name_line :
  is_hindi_line (strip common_name_with_hindi) = true /\
  index (split COLON (Some 1%nat) (strip common_name_with_hindi)) 1
  = Ok (u " Holy Basil (Hindi: Tulsi)") /\
  bool_decide (lower (strip (u " Holy Basil (Hindi: Tulsi)")) ∈ absent_names)
  = false /\
  process_gemini_response common_name_with_hindi
  = Ok (set_common_name (u "Holy Basil (Hindi: Tulsi)") initial_plant_info) /\
  hindi_name (set_common_name (u "Holy Basil (Hindi: Tulsi)") initial_plant_info)
  <> strip (u " Holy Basil (Hindi: Tulsi)").
Proof.
  repeat split; try (vm_compute; reflexivity).
  vm_compute. discriminate.
Qed.

(** ** The response parser: season sections *)

(** With no section current, a line that is not a section header leaves the
    tip lists and the cursor as they are. *)
Lemma step_without_section (st st' : plant_info * option str) (raw : str) :
  step st raw st' -> is_section_header raw = false -> st.2 = None ->
  st'.2 = None /\ care_instructions st'.1 = care_instructions st.1.
Proof.
  intros Hstep Hh Hcur. inversion Hstep; subst; simpl in *; try discriminate;
    try (split; [assumption | reflexivity]).
  - split; [assumption|]. destruct (bool_decide _); reflexivity.
  - congruence.
Qed.

Lemma run_without_section (lines : list str) (info : plant_info) :
  state_ok (info, None) ->
  (forall r, r ∈ lines -> is_section_header r = false) ->
  exists info',
    for_each parse_line (info, None) lines = Ok (info', None) /\
    care_instructions info' = care_instructions info.
Proof.
  revert info. induction lines as [|raw lines IH]; intros info Hst Hall.
  - exists info. auto.
  - destruct (parse_line_step _ raw Hst) as ([info1 cur1] & Hrun & Hstep & Hst1).
    destruct (step_without_section _ _ _ Hstep) as [Hcur Hcare];
      [apply Hall; left | reflexivity |].
    simpl in Hcur, Hcare. subst cur1.
    destruct (IH info1 Hst1) as (info' & Hrun' & Hcare').
    { intros r Hr. apply Hall. right. exact Hr. }
    exists info'. cbn [for_each]. rewrite Hrun. cbn [mbind result_bind].
    split; [exact Hrun'|]. congruence.
Qed.

(** The tip lists and the cursor an iteration produces depend on the tip
    lists and the cursor it starts from, not on the two names. *)
Lemma parse_line_care_indep (info1 info2 info1' : plant_info)
      (cur cur' : option str) (raw : str) :
  care_instructions info1 = care_instructions info2 ->
  parse_line (info1, cur) raw = Ok (info1', cur') ->
  exists info2',
    parse_line (info2, cur) raw = Ok (info2', cur') /\
    care_instructions info1' = care_instructions info2'.
Proof.
  destruct info1 as [cn1 hn1 ci], info2 as [cn2 hn2 ci2]. simpl. intros <-.
  unfold parse_line, mbind, result_bind, index, getitem.
  cbn [care_instructions]. intros Hparse.
  repeat (case_match; simplify_eq/=);
    eexists; (split; [reflexivity|]); reflexivity.
Qed.

Lemma run_care_indep (lines : list str) (info1 info2 info1' : plant_info)
      (cur cur' : option str) :
  care_instructions info1 = care_instructions info2 ->
  for_each parse_line (info1, cur) lines = Ok (info1', cur') ->
  exists info2',
    for_each parse_line (info2, cur) lines = Ok (info2', cur') /\
    care_instructions info1' = care_instructions info2'.
Proof.
  revert info1 info2 cur. induction lines as [|raw lines IH];
    intros info1 info2 cur Hcare; cbn [for_each].
  - intros [= <- <-]. exists info2. auto.
  - destruct (parse_line (info1, cur) raw) as [[i1 c1]|] eqn:H1; [|discriminate].
    cbn [mbind result_bind]. intros Hrun.
    destruct (parse_line_care_indep _ info2 _ _ _ _ Hcare H1) as (i2 & -> & Hcare').
    cbn [mbind result_bind]. apply (IH _ _ _ Hcare' Hrun).
Qed.

(** C8: lines before the first section header, bullets included, leave no
    trace in the tip lists: after them every list is still empty and no
    section is current, and the four lists of the result are those obtained
    from the remaining lines alone. *)
Theorem bullets_before_header_dropped (text : str) (pre rest : list str) :
  split LF None text = pre ++ rest ->
  (forall r, r ∈ pre -> is_section_header r = false) ->
  exists info0 info info' cur',
    process_lines pre = Ok (info0, None) /\
    care_instructions info0 = care_instructions initial_plant_info /\
    process_gemini_response text = Ok info /\
    process_lines rest = Ok (info', cur') /\
    care_instructions info = care_instructions info'.
Proof.
  intros Hlines Hpre.
  destruct (run_without_section pre _ initial_state_ok Hpre) as (info0 & Hrun0 & Hcare0).
  assert (Hok0 : state_ok (info0, None)).
  { split; simpl; [rewrite Hcare0; apply initial_state_ok | intros s [=]]. }
  destruct (run_ok _ rest Hok0) as ([info cur'] & Hrun & _).
  destruct (run_care_indep _ _ initial_plant_info _ _ _ Hcare0 Hrun)
    as (info' & Hrun' & Hcare).
  exists info0, info, info', cur'.
  unfold process_gemini_response, process_lines.
  rewrite Hlines, for_each_app.
  unfold process_lines in Hrun0. rewrite Hrun0. cbn [mbind result_bind].
  rewrite Hrun. auto.
Qed.

Lemma bullets_before_header_dropped_witness :
  exists info0 info info' cur',
    process_lines [u "* intro"; BULLET :: u " early tip"] = Ok (info0, None) /\
    care_instructions info0 = care_instructions initial_plant_info /\
    process_gemini_response early_bullet_example = Ok info /\
    process_lines [u "Summer Care:"; BULLET :: u " Water daily"] = Ok (info', cur') /\
    care_instructions info = care_instructions info'.
Proof.
  apply (bullets_before_header_dropped early_bullet_example).
  - vm_compute. reflexivity.
  - intros r Hr.
    repeat (apply elem_of_cons in Hr as [-> | Hr]; [vm_compute; reflexivity|]).
    apply elem_of_nil in Hr. destruct Hr.
Defined.

Lemma parse_line_section_header (info : plant_info) (cur : option str)
      (raw season : str) :
  dom (care_instructions info) = season_keys ->
  is_section_header raw = true ->
  season ∈ seasons ->
  startswith (strip raw) (season ++ u " Care:") = true ->
  parse_line (info, cur) raw = Ok (info, Some season).
Proof.
  intros Hdom Hh Hin Hs. unfold is_section_header in Hh.
  rewrite !andb_true_iff, !negb_true_iff in Hh. destruct Hh as [[Hc Hhi] _].
  apply parse_line_header; assumption.
Qed.

(** C6, as the code has it: when the recognized lines of the input are a
    ["Summer Care:"] line followed by two bullet lines that contain no
    Hindi-name phrase, the Summer list holds the two bullet texts, markers
    and surrounding whitespace stripped, in input order, and the Spring,
    Monsoon and Winter lists are empty. *)
Theorem summer_section_two_bullets (text hdr b1 b2 : str) :
  List.filter recognized (split LF None text) = [hdr; b1; b2] ->
  strip hdr = u "Summer Care:" ->
  is_tip_line b1 = true -> is_tip_line b2 = true ->
  exists info,
    process_gemini_response text = Ok info /\
    care_instructions info !! Summer
    = Some [bullet_text (strip b1); bullet_text (strip b2)] /\
    care_instructions info !! Spring = Some [] /\
    care_instructions info !! Monsoon = Some [] /\
    care_instructions info !! Winter = Some [].
Proof.
  intros Hlines Hhdr Hb1 Hb2.
  unfold process_gemini_response, process_lines.
  rewrite (run_filter_recognized _ _ initial_state_ok), Hlines.
  change [hdr; b1; b2] with ([hdr] ++ [b1; b2]). rewrite for_each_app.
  assert (Hrun : for_each parse_line (initial_plant_info, None) [hdr]
                 = Ok (initial_plant_info, Some Summer)).
  { cbn [for_each].
    rewrite (parse_line_section_header _ _ _ Summer initial_dom); [reflexivity| | |].
    - unfold is_section_header. rewrite Hhdr. reflexivity.
    - apply (bool_decide_unpack _). vm_compute. exact I.
    - rewrite Hhdr. reflexivity. }
  rewrite Hrun. cbn [mbind result_bind].
  rewrite (run_tips [b1; b2] _ Summer [] initial_dom).
  2: { apply (bool_decide_unpack _). vm_compute. exact I. }
  2: { reflexivity. }
  2: { intros b Hb. rewrite !elem_of_cons, elem_of_nil in Hb.
       destruct Hb as [-> | [-> | []]]; assumption. }
  eexists. split; [reflexivity|]. cbn [fst care_instructions set_care_instructions map app].
  split; [apply lookup_insert_eq|].
  repeat split; (rewrite lookup_insert_ne by discriminate); reflexivity.
Qed.

Lemma summer_section_two_bullets_witness :
  exists info,
    process_gemini_response summer_example = Ok info /\
    care_instructions info !! Summer
    = Some [u "Water weekly"; u "Keep in shade"] /\
    care_instructions info !! Spring = Some [] /\
    care_instructions info !! Monsoon = Some [] /\
    care_instructions info !! Winter = Some [].
Proof.
  apply (summer_section_two_bullets summer_example summer_header
           water_bullet shade_bullet); vm_compute; reflexivity.
Defined.

(** C6 as stated fails when a bullet line contains a Hindi-name phrase: the
    second branch takes the line, so it sets [hindi_name] and never reaches
    the Summer list. *)
Lemma hindi_bullet_not_a_tip :
  List.filter recognized (split LF None summer_hindi_example)
  = [summer_header; hindi_bullet; water_bullet] /\
  is_bullet_line (strip hindi_bullet) = true /\
  is_bullet_line (strip water_bullet) = true /\
  process_gemini_response summer_hindi_example
  = Ok (set_hindi_name (u "Tulsi")
          (set_care_instructions
             (<[Summer := [u "Water weekly"]]>
                (care_instructions initial_plant_info))
             initial_plant_info)) /\
  [u "Water weekly"]
  <> [bullet_text (strip hindi_bullet); bullet_text (strip water_bullet)].
Proof.
  repeat split; try (vm_compute; reflexivity).
  vm_compute. discriminate.
Qed.


(** ** Binary64 arithmetic: upper bounds through rounding

    The numbers [prepare_image] computes with are products and quotients of
    small integers.  The bounds below follow the operations of
    [SpecFloat], which the primitive floats implement: rounding to nearest
    never moves a value above a bound that lies on the grid of the result. *)

Module Float64Facts.
Import Float64.

Lemma digits2_pos_spec (p : positive) :
  2 ^ (Zpos (digits2_pos p) - 1) <= Zpos p < 2 ^ Zpos (digits2_pos p).
Proof.
  induction p as [p IH|p IH|]; simpl digits2_pos.
  - rewrite Pos2Z.inj_succ.
    replace (Z.succ (Zpos (digits2_pos p)) - 1) with (Z.succ (Zpos (digits2_pos p) - 1)) by lia.
    rewrite !Z.pow_succ_r by lia. lia.
  - rewrite Pos2Z.inj_succ.
    replace (Z.succ (Zpos (digits2_pos p)) - 1) with (Z.succ (Zpos (digits2_pos p) - 1)) by lia.
    rewrite !Z.pow_succ_r by lia. lia.
  - simpl. lia.
Qed.

Lemma shr_1_below (mrs : shr_record) (bound : Z) :
  below mrs (2 * bound) -> below (shr_1 mrs) bound.
Proof.
  destruct mrs as [m r s]. unfold below, inexact. simpl shr_m. simpl shr_r. simpl shr_s.
  intros [Hm Hi].
  destruct m as [|[p|p|]|p], r, s; simpl in *;
    (split; [lia|]); intros H; try discriminate H;
    try (specialize (Hi eq_refl)); lia.
Qed.

Lemma pow2_double (p : positive) : 2 ^ Zpos p~0 = 2 ^ Zpos p * 2 ^ Zpos p.
Proof. rewrite Pos2Z.inj_xO, <- Z.pow_add_r by lia. f_equal. lia. Qed.

Lemma pow2_double_succ (p : positive) : 2 ^ Zpos p~1 = 2 * (2 ^ Zpos p * 2 ^ Zpos p).
Proof.
  rewrite Pos2Z.inj_xI, <- Z.pow_add_r, <- Z.pow_succ_r by lia. f_equal. lia.
Qed.

Lemma iter_shr_1_below (p : positive) (mrs : shr_record) (bound : Z) :
  below mrs (2 ^ Zpos p * bound) -> below (SpecFloat.iter_pos shr_1 p mrs) bound.
Proof.
  revert mrs bound. induction p as [p IH|p IH|]; intros mrs bound H; simpl SpecFloat.iter_pos.
  - apply IH, IH, shr_1_below. rewrite pow2_double_succ in H.
    replace (2 * (2 ^ Zpos p * (2 ^ Zpos p * bound)))
      with (2 * (2 ^ Zpos p * 2 ^ Zpos p) * bound) by ring. exact H.
  - apply IH, IH. rewrite pow2_double in H.
    replace (2 ^ Zpos p * (2 ^ Zpos p * bound))
      with (2 ^ Zpos p * 2 ^ Zpos p * bound) by ring. exact H.
  - apply shr_1_below. exact H.
Qed.

Lemma bound_at_shift (Y E e n : Z) :
  0 < n -> e + n <= E -> bound_at Y E e = 2 ^ n * bound_at Y E (e + n).
Proof.
  intros Hn HE. unfold bound_at.
  replace (E - e) with (n + (E - (e + n))) by lia.
  rewrite Z.pow_add_r by lia. ring.
Qed.

Lemma fexp_le (Y E m e : Z) :
  0 <= m <= bound_at Y E e -> 0 <= Y < 2 ^ 52 -> e <= E ->
  SpecFloat.emin prec emax <= E ->
  fexp prec emax (Zdigits2 m + e) <= E.
Proof.
  intros Hm HY He Hemin. unfold fexp. apply Z.max_lub; [|exact Hemin].
  destruct m as [|p|p]; simpl Zdigits2; [unfold prec; lia| |lia].
  pose proof (digits2_pos_spec p) as [Hd _].
  assert (Hlt : 2 ^ (Zpos (digits2_pos p) - 1) < 2 ^ (52 + (E - e))).
  { eapply Z.le_lt_trans; [exact Hd|]. eapply Z.le_lt_trans; [apply Hm|].
    unfold bound_at. rewrite Z.pow_add_r by lia.
    apply Z.mul_lt_mono_pos_r; [apply Z.pow_pos_nonneg; lia | lia]. }
  apply Z.pow_lt_mono_r_iff in Hlt; [|lia|lia]. unfold prec. lia.
Qed.

Lemma shr_fexp_below (Y E m e : Z) (l : location) :
  below (shr_record_of_loc m l) (bound_at Y E e) ->
  0 <= Y < 2 ^ 52 -> e <= E -> SpecFloat.emin prec emax <= E ->
  (e <= (shr_fexp prec emax m e l).2 <= E) /\
  below (shr_fexp prec emax m e l).1 (bound_at Y E (shr_fexp prec emax m e l).2).
Proof.
  intros Hb HY He Hemin.
  assert (Hm : 0 <= m <= bound_at Y E e).
  { destruct Hb as [Hb _]. destruct l as [|[]]; exact Hb. }
  pose proof (fexp_le Y E m e Hm HY He Hemin) as Hf.
  unfold shr_fexp, shr.
  destruct (fexp prec emax (Zdigits2 m + e) - e) as [|n|n] eqn:Hn; simpl fst; simpl snd.
  - split; [lia | exact Hb].
  - split; [lia|]. apply iter_shr_1_below.
    rewrite <- bound_at_shift; [exact Hb | lia | lia].
  - split; [lia | exact Hb].
Qed.

Lemma round_nearest_even_below (mrs : shr_record) (bound : Z) :
  below mrs bound ->
  0 <= round_nearest_even (shr_m mrs) (loc_of_shr_record mrs) <= bound.
Proof.
  destruct mrs as [m r s]. unfold below, inexact. simpl.
  intros [Hm Hi].
  destruct r, s; simpl; try (specialize (Hi eq_refl));
    try destruct (IntDef.Z.even m); lia.
Qed.

(** Rounding to nearest never goes above a bound [Y * 2^E] that the exact
    value does not exceed, when the bound lies on the grid of the result. *)
Lemma binary_round_aux_le (Y E m e : Z) (l : location) :
  below (shr_record_of_loc m l) (bound_at Y E e) ->
  0 <= Y < 2 ^ 52 -> e <= E ->
  SpecFloat.emin prec emax <= E <= emax - prec ->
  binary_round_aux prec emax false m e l = S754_zero false \/
  exists m' e',
    binary_round_aux prec emax false m e l = S754_finite false m' e' /\
    (e <= e' <= E) /\ Zpos m' <= bound_at Y E e'.
Proof.
  intros Hb HY He [Hemin Hemax]. unfold binary_round_aux.
  destruct (shr_fexp_below Y E m e l Hb HY He Hemin) as [He1 Hb1].
  destruct (shr_fexp prec emax m e l) as [mrs1 e1]. simpl fst in *. simpl snd in *.
  apply round_nearest_even_below in Hb1.
  set (m1 := round_nearest_even (shr_m mrs1) (loc_of_shr_record mrs1)) in *.
  assert (Hb2 : below (shr_record_of_loc m1 loc_Exact) (bound_at Y E e1)).
  { split; simpl; [exact Hb1 | discriminate]. }
  destruct (shr_fexp_below Y E m1 e1 loc_Exact Hb2 HY) as [He2 [Hb3 _]]; [lia|lia|].
  destruct (shr_fexp prec emax m1 e1 loc_Exact) as [mrs2 e2]. simpl fst in *. simpl snd in *.
  destruct (shr_m mrs2) as [|m2|m2]; [left; reflexivity | right | lia].
  exists m2, e2. replace (e2 <=? emax - prec) with true by (symmetry; apply Z.leb_le; lia).
  split; [reflexivity|]. split; [lia | apply Hb3].
Qed.

(** *** Integers below [2^53] convert exactly *)

Lemma digits2_pos_iter_xO (p d : positive) :
  digits2_pos (Pos.iter xO p d) = (digits2_pos p + d)%positive.
Proof.
  induction d as [|d IH] using Pos.peano_ind.
  - simpl. lia.
  - rewrite Pos.iter_succ. simpl. rewrite IH. lia.
Qed.

Lemma Zpos_iter_xO (p d : positive) :
  Zpos (Pos.iter xO p d) = Zpos p * 2 ^ Zpos d.
Proof.
  induction d as [|d IH] using Pos.peano_ind.
  - simpl. lia.
  - rewrite Pos.iter_succ, Pos2Z.inj_xO, IH, Pos2Z.inj_succ, Z.pow_succ_r by lia. ring.
Qed.

(** A mantissa of 53 digits with an exponent in range is already rounded. *)
Lemma binary_round_aux_canonical (m : positive) (e : Z) :
  Zpos (digits2_pos m) = 53 ->
  SpecFloat.emin prec emax <= e <= emax - prec ->
  binary_round_aux prec emax false (Zpos m) e loc_Exact = S754_finite false m e.
Proof.
  intros Hd [Hlo Hhi].
  assert (Hn : fexp prec emax (Zdigits2 (Zpos m) + e) - e = 0).
  { simpl Zdigits2. rewrite Hd. unfold fexp, SpecFloat.emin, prec, emax in *. lia. }
  unfold binary_round_aux, shr_fexp. rewrite Hn.
  cbn [shr shr_record_of_loc shr_m loc_of_shr_record round_nearest_even].
  rewrite Hn.
  cbn [shr shr_record_of_loc shr_m loc_of_shr_record round_nearest_even].
  replace (e <=? emax - prec) with true by (symmetry; apply Z.leb_le; lia).
  reflexivity.
Qed.

Lemma binary_normalize_int (n : Z) :
  0 < n < 2 ^ 53 ->
  exists m e,
    binary_normalize prec emax n 0 false = S754_finite false m e /\
    Zpos (digits2_pos m) = 53 /\ (-52 <= e <= 0) /\ Zpos m = n * 2 ^ (- e).
Proof.
  intros [Hpos Hlt]. destruct n as [|p|p]; try lia.
  pose proof (digits2_pos_spec p) as [Hd _].
  assert (Hd53 : Zpos (digits2_pos p) <= 53).
  { assert (H : 2 ^ (Zpos (digits2_pos p) - 1) < 2 ^ 53) by lia.
    apply Z.pow_lt_mono_r_iff in H; lia. }
  unfold binary_normalize, binary_round, shl_align.
  replace (fexp prec emax (Zpos (digits2_pos p) + 0)) with (Zpos (digits2_pos p) - 53)
    by (unfold fexp, SpecFloat.emin, prec, emax; lia).
  destruct (Zpos (digits2_pos p) - 53 - 0) as [|k|k] eqn:Hk; try lia.
  - exists p, 0. rewrite binary_round_aux_canonical;
      [|lia|unfold SpecFloat.emin, prec, emax; lia].
    replace (Zpos (digits2_pos p) - 53) with 0 by lia.
    repeat split; simpl; lia.
  - exists (Pos.iter xO p k), (Zpos (digits2_pos p) - 53).
    rewrite binary_round_aux_canonical.
    + split; [reflexivity|]. split; [rewrite digits2_pos_iter_xO; lia|].
      split; [lia|]. rewrite Zpos_iter_xO. f_equal. f_equal. lia.
    + rewrite digits2_pos_iter_xO. lia.
    + unfold SpecFloat.emin, prec, emax; lia.
Qed.

(** *** Division and multiplication of positive finite numbers *)

Lemma SFdiv_finite (m1 m2 : positive) (e1 e2 : Z) :
  Zpos (digits2_pos m1) = 53 -> Zpos (digits2_pos m2) = 53 ->
  SpecFloat.emin prec emax <= e1 - e2 - 53 ->
  SFdiv prec emax (S754_finite false m1 e1) (S754_finite false m2 e2)
  = binary_round_aux prec emax false
      (Zpos m1 * 2 ^ 53 / Zpos m2) (e1 - e2 - 53)
      (new_location (Zpos m2) ((Zpos m1 * 2 ^ 53) mod Zpos m2)).
Proof.
  intros Hd1 Hd2 Hmin. unfold SFdiv, SFdiv_core_binary. simpl Zdigits2.
  rewrite Hd1, Hd2.
  replace (Z.min (fexp prec emax (53 + e1 - (53 + e2))) (e1 - e2))
    with (e1 - e2 - 53) by (unfold fexp, SpecFloat.emin, prec, emax in *; lia).
  replace (e1 - e2 - (e1 - e2 - 53)) with 53 by lia.
  rewrite Z.shiftl_mul_pow2 by lia.
  unfold Z.div, Z.modulo.
  destruct (Z.div_eucl (Zpos m1 * 2 ^ 53) (Zpos m2)) as [q r]. reflexivity.
Qed.

Lemma new_location_inexact (n q r : Z) :
  inexact (shr_record_of_loc q (new_location n r)) = negb (r =? 0).
Proof.
  unfold new_location, new_location_even, new_location_odd.
  destruct (Z.even n), (r =? 0); try reflexivity.
  - destruct (2 * r ?= n); reflexivity.
  - destruct (2 * r + 1 ?= n); reflexivity.
Qed.

Lemma new_location_m (n q r : Z) :
  shr_m (shr_record_of_loc q (new_location n r)) = q.
Proof. destruct (new_location n r) as [|[]]; reflexivity. Qed.

(** The rounded quotient is at most any grid bound the exact quotient does
    not exceed. *)
Lemma SFdiv_le (Y E : Z) (m1 m2 : positive) (e1 e2 : Z) :
  Zpos (digits2_pos m1) = 53 -> Zpos (digits2_pos m2) = 53 ->
  SpecFloat.emin prec emax <= e1 - e2 - 53 <= E ->
  0 <= Y < 2 ^ 52 -> E <= emax - prec ->
  Zpos m1 * 2 ^ 53 <= bound_at Y E (e1 - e2 - 53) * Zpos m2 ->
  SFdiv prec emax (S754_finite false m1 e1) (S754_finite false m2 e2)
  = S754_zero false \/
  exists m e,
    SFdiv prec emax (S754_finite false m1 e1) (S754_finite false m2 e2)
    = S754_finite false m e /\
    (e1 - e2 - 53 <= e <= E) /\ Zpos m <= bound_at Y E e.
Proof.
  intros Hd1 Hd2 [Hmin He] HY Hmax Hle. rewrite (SFdiv_finite _ _ _ _ Hd1 Hd2 Hmin).
  apply binary_round_aux_le; try lia.
  set (a := Zpos m1 * 2 ^ 53) in *. set (B := bound_at Y E (e1 - e2 - 53)) in *.
  pose proof (Z.div_mod a (Zpos m2) ltac:(lia)) as Hdm.
  pose proof (Z.mod_pos_bound a (Zpos m2) ltac:(lia)) as Hr.
  assert (Ha : 0 <= a) by (unfold a; lia).
  pose proof (Z.div_pos a (Zpos m2) Ha ltac:(lia)) as Hq.
  split.
  - rewrite new_location_m. split; [exact Hq|]. nia.
  - rewrite new_location_inexact, new_location_m, negb_true_iff, Z.eqb_neq.
    intros Hne. nia.
Qed.

Lemma SFmul_le (Y E : Z) (m1 m2 : positive) (e1 e2 : Z) :
  e1 + e2 <= E -> SpecFloat.emin prec emax <= E <= emax - prec ->
  0 <= Y < 2 ^ 52 ->
  Zpos m1 * Zpos m2 <= bound_at Y E (e1 + e2) ->
  SFmul prec emax (S754_finite false m1 e1) (S754_finite false m2 e2)
  = S754_zero false \/
  exists m e,
    SFmul prec emax (S754_finite false m1 e1) (S754_finite false m2 e2)
    = S754_finite false m e /\
    (e1 + e2 <= e <= E) /\ Zpos m <= bound_at Y E e.
Proof.
  intros He HE HY Hle. unfold SFmul. simpl xorb.
  apply binary_round_aux_le; try assumption.
  split; simpl; [lia | discriminate].
Qed.

Lemma float_of_int_spec (n : Z) :
  0 <= n < 2 ^ 63 ->
  Prim2SF (float_of_int n) = binary_normalize prec emax n 0 false.
Proof.
  intros Hn. unfold float_of_int. rewrite of_uint63_spec, Uint63.of_Z_spec.
  rewrite Z.mod_small; [reflexivity|]. exact Hn.
Qed.

Lemma float_of_int_pos (n : Z) :
  0 < n < 2 ^ 53 ->
  exists m e,
    Prim2SF (float_of_int n) = S754_finite false m e /\
    Zpos (digits2_pos m) = 53 /\ (-52 <= e <= 0) /\ Zpos m = n * 2 ^ (- e).
Proof.
  intros Hn. rewrite float_of_int_spec by lia. apply binary_normalize_int, Hn.
Qed.

Lemma ratio_bound_spec (M : Z) :
  300 < M <= 2 ^ 31 ->
  300 * 2 ^ 32 <= ratio_bound M * M /\
  ratio_bound M * M <= 601 * 2 ^ 31 /\
  0 <= ratio_bound M < 2 ^ 52.
Proof.
  intros HM. unfold ratio_bound.
  pose proof (Z.div_mod (300 * 2 ^ 32) M ltac:(lia)) as Hdm.
  pose proof (Z.mod_pos_bound (300 * 2 ^ 32) M ltac:(lia)) as Hr.
  assert (Hq : 0 <= 300 * 2 ^ 32 / M) by (apply Z.div_pos; lia).
  assert (Hq' : 300 * 2 ^ 32 / M < 2 ^ 32).
  { apply Z.div_lt_upper_bound; lia. }
  repeat split; nia.
Qed.

(** The ratio [300 / M] as a float: zero or a positive finite number that
    is at most one and at most [ratio_bound M * 2^-32]. *)
Lemma ratio_le (M : Z) :
  300 < M <= 2 ^ 31 ->
  Prim2SF (float_of_int 300 / float_of_int M) = S754_zero false \/
  exists m e,
    Prim2SF (float_of_int 300 / float_of_int M) = S754_finite false m e /\
    e <= -32 /\ Zpos m <= bound_at 1 0 e /\
    Zpos m <= bound_at (ratio_bound M) (-32) e.
Proof.
  intros HM. rewrite FloatAxioms.div_spec. unfold SF64div.
  destruct (float_of_int_pos M) as (mM & eM & -> & HdM & HeM & HmM); [lia|].
  replace (Prim2SF (float_of_int 300))
    with (S754_finite false 5277655813324800 (-44)) by (vm_compute; reflexivity).
  destruct (ratio_bound_spec M HM) as (Hc1 & Hc2 & Hc3).
  assert (H97 : 2 ^ (97 + eM) * 2 ^ (- eM) = 2 ^ 97).
  { rewrite <- Z.pow_add_r by lia. f_equal. lia. }
  assert (H65 : 2 ^ (65 + eM) * 2 ^ (- eM) = 2 ^ 65).
  { rewrite <- Z.pow_add_r by lia. f_equal. lia. }
  assert (Hp : 0 < 2 ^ (- eM)) by (apply Z.pow_pos_nonneg; lia).
  assert (Hrange : SpecFloat.emin prec emax <= -44 - eM - 53)
    by (unfold SpecFloat.emin, prec, emax; lia).
  assert (Hmax : forall E, E <= 0 -> E <= emax - prec) by (unfold prec, emax; lia).
  assert (Hb1 : 5277655813324800 * 2 ^ 53
                <= bound_at 1 0 (-44 - eM - 53) * Zpos mM).
  { unfold bound_at. rewrite HmM.
    replace (0 - (-44 - eM - 53)) with (97 + eM) by lia.
    replace (1 * 2 ^ (97 + eM) * (M * 2 ^ (- eM)))
      with (M * (2 ^ (97 + eM) * 2 ^ (- eM))) by ring.
    rewrite H97. change (5277655813324800 * 2 ^ 53) with (300 * 2 ^ 97). lia. }
  assert (Hb2 : 5277655813324800 * 2 ^ 53
                <= bound_at (ratio_bound M) (-32) (-44 - eM - 53) * Zpos mM).
  { unfold bound_at. rewrite HmM.
    replace (-32 - (-44 - eM - 53)) with (65 + eM) by lia.
    replace (ratio_bound M * 2 ^ (65 + eM) * (M * 2 ^ (- eM)))
      with (ratio_bound M * M * (2 ^ (65 + eM) * 2 ^ (- eM))) by ring.
    rewrite H65.
    change (5277655813324800 * 2 ^ 53) with (300 * 2 ^ 32 * 2 ^ 65).
    apply Z.mul_le_mono_nonneg_r; [lia | exact Hc1]. }
  assert (He0 : -44 - eM - 53 <= 0) by lia.
  assert (He32 : -44 - eM - 53 <= -32) by lia.
  assert (HY1 : 0 <= 1 < 2 ^ 52) by (split; [lia | reflexivity]).
  destruct (SFdiv_le 1 0 5277655813324800 mM (-44) eM eq_refl HdM
              (conj Hrange He0) HY1 (Hmax 0 ltac:(lia)) Hb1)
    as [Hz | (m & e & Hr & He & Hm)]; [left; exact Hz|].
  destruct (SFdiv_le (ratio_bound M) (-32) 5277655813324800 mM (-44) eM eq_refl HdM
              (conj Hrange He32) Hc3 (Hmax (-32) ltac:(lia)) Hb2)
    as [Hz | (m' & e' & Hr' & He' & Hm')]; [left; exact Hz|].
  right. rewrite Hr in Hr'. injection Hr' as <- <-.
  exists m, e. rewrite Hr. repeat split; try assumption; lia.
Qed.

Lemma int_of_SF_le (m : positive) (e d : Z) :
  e <= -1 ->
  Zpos m <= bound_at d 0 e -> Zpos m <= bound_at 601 (-1) e ->
  exists v, int_of_SF (S754_finite false m e) = Ok v /\ 0 <= v /\ v <= d /\ v <= 300.
Proof.
  intros He Hd H601. unfold bound_at in *. simpl int_of_SF.
  replace (0 <=? e) with false by (symmetry; apply Z.leb_gt; lia).
  simpl cond_Zopp. replace (0 - e) with (- e) in Hd by lia.
  assert (Hp : 0 < 2 ^ (-1 - e)) by (apply Z.pow_pos_nonneg; lia).
  assert (H2 : 2 ^ (- e) = 2 * 2 ^ (-1 - e)).
  { rewrite <- Z.pow_succ_r by lia. f_equal. lia. }
  eexists. split; [reflexivity|]. split; [|split].
  - apply Z.div_pos; lia.
  - apply Z.div_le_upper_bound; lia.
  - apply Z.lt_succ_r. apply Z.div_lt_upper_bound; lia.
Qed.

(** One side of the new size: [int(d * (300 / M))] is defined, and is at
    most [d] and at most 300, for every side [d] of an image whose longer
    side [M] exceeds 300. *)
Lemma scaled_dim (d M : Z) :
  300 < M <= 2 ^ 31 -> 0 <= d <= M ->
  exists v,
    int_of_float (float_of_int d * (float_of_int 300 / float_of_int M)) = Ok v /\
    0 <= v /\ v <= d /\ v <= 300.
Proof.
  intros HM Hd. unfold int_of_float. rewrite FloatAxioms.mul_spec. unfold SF64mul.
  assert (Hzero : exists v, int_of_SF (S754_zero false) = Ok v /\
                            0 <= v /\ v <= d /\ v <= 300).
  { exists 0. simpl. repeat split; lia. }
  destruct (Z.eq_dec d 0) as [-> | Hd0].
  { replace (Prim2SF (float_of_int 0)) with (S754_zero false)
      by (vm_compute; reflexivity).
    destruct (ratio_le M HM) as [-> | (mr & er & -> & _)]; exact Hzero. }
  destruct (float_of_int_pos d) as (md & ed & -> & Hdd & Hed & Hmd); [lia|].
  destruct (ratio_le M HM) as [-> | (mr & er & -> & Her & Hm1 & Hmc)];
    [exact Hzero|].
  destruct (ratio_bound_spec M HM) as (_ & Hc2 & Hc3).
  unfold bound_at in Hm1, Hmc.
  assert (Hpd : 0 < 2 ^ (- ed)) by (apply Z.pow_pos_nonneg; lia).
  assert (Hpr : 0 < 2 ^ (-32 - er)) by (apply Z.pow_pos_nonneg; lia).
  assert (Hb1 : Zpos md * Zpos mr <= bound_at d 0 (ed + er)).
  { unfold bound_at. replace (0 - (ed + er)) with (- ed + (0 - er)) by lia.
    rewrite Z.pow_add_r, Hmd by lia. nia. }
  assert (Hb2 : Zpos md * Zpos mr <= bound_at 601 (-1) (ed + er)).
  { unfold bound_at.
    replace (-1 - (ed + er)) with (31 + (- ed + (-32 - er))) by lia.
    rewrite !Z.pow_add_r, Hmd by lia.
    assert (Hdc : d * ratio_bound M <= 601 * 2 ^ 31) by nia.
    transitivity (d * ratio_bound M * (2 ^ (- ed) * 2 ^ (-32 - er))); [nia|].
    replace (601 * (2 ^ 31 * (2 ^ (- ed) * 2 ^ (-32 - er))))
      with (601 * 2 ^ 31 * (2 ^ (- ed) * 2 ^ (-32 - er))) by ring.
    apply Z.mul_le_mono_nonneg_r; [nia | exact Hdc]. }
  assert (Hemin : SpecFloat.emin prec emax <= -1 <= emax - prec)
    by (unfold SpecFloat.emin, prec, emax; lia).
  assert (Hemin0 : SpecFloat.emin prec emax <= 0 <= emax - prec)
    by (unfold SpecFloat.emin, prec, emax; lia).
  assert (HYd : 0 <= d < 2 ^ 52) by lia.
  assert (HY601 : 0 <= 601 < 2 ^ 52) by (split; [lia | reflexivity]).
  destruct (SFmul_le d 0 md mr ed er ltac:(lia) Hemin0 HYd Hb1)
    as [-> | (m & e & Hp & He & Hm)]; [exact Hzero|].
  destruct (SFmul_le 601 (-1) md mr ed er ltac:(lia) Hemin HY601 Hb2)
    as [Hz | (m' & e' & Hp' & He' & Hm')]; [congruence|].
  rewrite Hp in Hp'. injection Hp' as <- <-. rewrite Hp.
  apply int_of_SF_le; [lia | exact Hm | exact Hm'].
Qed.
End Float64Facts.

(** ** The image normaliser: sizes *)

(** The new size is defined, and neither side exceeds the old side or 300. *)
Lemma new_size_bounds (w h : Z) :
  0 <= w -> 0 <= h -> 300 < Z.max w h <= 2 ^ 31 ->
  exists w' h',
    new_size (w, h) = Ok (w', h') /\
    (0 <= w' <= w) /\ (0 <= h' <= h) /\ w' <= 300 /\ h' <= 300.
Proof.
  intros Hw Hh HM. unfold new_size, true_div. cbn [fst snd].
  replace (Z.max w h =? 0) with false by (symmetry; apply Z.eqb_neq; lia).
  cbn [mbind result_bind]. unfold max_size.
  destruct (Float64Facts.scaled_dim w (Z.max w h) HM) as (w' & -> & Hw'); [lia|].
  destruct (Float64Facts.scaled_dim h (Z.max w h) HM) as (h' & -> & Hh'); [lia|].
  exists w', h'. cbn [mbind result_bind]. repeat split; lia.
Qed.

Section PrepareImageFacts.
Context {image : Type} `{Pillow image}.

Lemma resize_step_size (im im' : image) (w h : Z) :
  im_size im = (w, h) -> 0 <= w < 2 ^ 31 -> 0 <= h < 2 ^ 31 ->
  resize_step im = Ok im' ->
  exists w' h',
    im_size im' = (w', h') /\ Z.max w' h' <= 300 /\ w' <= w /\ h' <= h /\
    (Z.max w h <= 300 -> w' = w /\ h' = h).
Proof.
  intros Hsize Hw Hh. unfold resize_step. rewrite Hsize. cbn [fst snd].
  unfold max_size. destruct (Z.ltb_spec 300 (Z.max w h)) as [Hbig | Hsmall].
  - destruct (new_size_bounds w h) as (w' & h' & -> & Hw' & Hh' & Hw3 & Hh3);
      [lia | lia | lia |].
    cbn [mbind result_bind]. intros Hres. apply im_resize_size in Hres.
    exists w', h'. repeat split; try lia. exact Hres.
  - intros [= <-]. exists w, h. repeat split; try lia. exact Hsize.
Qed.

Lemma convert_step_size (im im' : image) :
  convert_step im = Ok im' -> im_size im' = im_size im.
Proof.
  unfold convert_step. destruct (bool_decide _).
  - apply im_convert_size.
  - intros [= <-]. reflexivity.
Qed.

(** C3: when [prepare_image] returns a payload, the payload is the base64
    text of the encoding of an image whose longer side is at most 300 and
    whose sides are at most the sides of the input; an input whose longer
    side is at most 300 keeps its width and height. *)
Theorem prepare_image_size (im : image) (w h : Z) (d : image_data) :
  im_size im = (w, h) -> 0 <= w < 2 ^ 31 -> 0 <= h < 2 ^ 31 ->
  (prepare_image im).2 = Ok (Some d) ->
  exists im' image_bytes w' h',
    (im1 ← resize_step im; convert_step im1) = Ok im' /\
    im_save im' (u "JPEG") 50 = Ok image_bytes /\
    data d = b64encode image_bytes /\
    im_size im' = (w', h') /\
    Z.max w' h' <= 300 /\ w' <= w /\ h' <= h /\
    (Z.max w h <= 300 -> w' = w /\ h' = h).
Proof.
  intros Hsize Hw Hh. unfold prepare_image, prepare_image_try.
  destruct (resize_step im) as [im1|e1] eqn:H1; cbn [mbind result_bind];
    [|intros [=]].
  destruct (convert_step im1) as [im2|e2] eqn:H2; cbn [mbind result_bind];
    [|intros [=]].
  unfold encode_step.
  destruct (im_save im2 (u "JPEG") 50) as [image_bytes|e3] eqn:H3;
    cbn [mbind result_bind snd]; intros [= <-].
  destruct (resize_step_size im im1 w h Hsize Hw Hh H1)
    as (w' & h' & Hs1 & Hbounds).
  exists im2, image_bytes, w', h'.
  split; [reflexivity|]. split; [exact H3|]. split; [reflexivity|].
  split; [|exact Hbounds].
  rewrite (convert_step_size _ _ H2). exact Hs1.
Qed.

(** C5, as the code has it: when resizing, converting or encoding raises,
    [prepare_image] shows ["Error processing image: "] followed by the text
    of the exception and returns [None]; it never raises itself. *)
Theorem prepare_image_failure (im : image) (e : exn) :
  resize_step im = Raise e \/
  (exists im1, resize_step im = Ok im1 /\ convert_step im1 = Raise e) \/
  (exists im1 im2, resize_step im = Ok im1 /\ convert_step im1 = Ok im2 /\
                   encode_step im2 = Raise e) ->
  prepare_image im
  = ([st_error (u "Error processing image: " ++ exn_str e)], Ok None).
Proof.
  unfold prepare_image, prepare_image_try.
  intros [H1 | [(im1 & H1 & H2) | (im1 & im2 & H1 & H2 & H3)]].
  - rewrite H1. reflexivity.
  - rewrite H1. cbn [mbind result_bind]. rewrite H2. reflexivity.
  - rewrite H1. cbn [mbind result_bind]. rewrite H2. cbn [mbind result_bind].
    rewrite H3. reflexivity.
Qed.
End PrepareImageFacts.

Lemma prepare_image_size_witness :
  exists im' image_bytes w' h',
    (im1 ← resize_step landscape_800; convert_step im1) = Ok im' /\
    im_save im' (u "JPEG") 50 = Ok image_bytes /\
    data (ImageData (u "image/jpeg") (b64encode [255; 216; 1; 44; 0; 225]))
    = b64encode image_bytes /\
    im_size im' = (w', h') /\
    Z.max w' h' <= 300 /\ w' <= 800 /\ h' <= 600 /\
    (Z.max 800 600 <= 300 -> w' = 800 /\ h' = 600).
Proof.
  apply (prepare_image_size landscape_800 800 600).
  - reflexivity.
  - lia.
  - lia.
  - vm_compute. reflexivity.
Defined.

(** C4 at a 562 x 562 image: [300 / 562] rounds down, [562 * (300 / 562)]
    is the double just below 300, and [int] truncates it, so the resized
    image is 299 x 299; the longer side is not 300. *)
Theorem new_size_562 :
  new_size (562, 562) = Ok (299, 299) /\
  resize_step square_562 = Ok (ToyImage (299, 299) (u "RGB") true).
Proof. split; vm_compute; reflexivity. Qed.

Lemma prepare_image_failure_witness :
  prepare_image truncated_upload
  = ([st_error (u "Error processing image: "
                ++ exn_str (OSError (u "image file is truncated")))],
     Ok None).
Proof.
  apply prepare_image_failure. left. vm_compute. reflexivity.
Defined.

(** C5 as stated fails: on an upload that does not decode, [prepare_image]
    ends normally with [None] after showing a message; it raises no
    [ImagePreparationError]. *)
Lemma prepare_image_returns_none :
  prepare_image truncated_upload
  = ([st_error (u "Error processing image: image file is truncated")],
     Ok None) /\
  (prepare_image truncated_upload).2
  <> Raise (ImagePreparationError (OSError (u "image file is truncated"))).
Proof.
  split; [vm_compute; reflexivity|]. vm_compute. discriminate.
Qed.

(** ** More facts about [strip] *)

Lemma drop_while_all (p : Z -> bool) (s : str) :
  (forall c, c ∈ s -> p c = true) -> drop_while p s = [].
Proof.
  induction s as [|c s IH]; intros Hall; simpl; [reflexivity|].
  rewrite (Hall c) by left. apply IH. intros d Hd. apply Hall. right. exact Hd.
Qed.

Lemma drop_while_app_all (p : Z -> bool) (ws s : str) :
  (forall c, c ∈ ws -> p c = true) ->
  drop_while p (ws ++ s) = drop_while p s.
Proof.
  induction ws as [|c ws IH]; intros Hall; simpl; [reflexivity|].
  rewrite (Hall c) by left. apply IH. intros d Hd. apply Hall. right. exact Hd.
Qed.

Lemma drop_while_stop (p : Z -> bool) (s t : str) :
  drop_while p s <> [] -> drop_while p (s ++ t) = drop_while p s ++ t.
Proof.
  induction s as [|c s IH]; simpl; [congruence|].
  destruct (p c); [exact IH | reflexivity].
Qed.

Lemma rstrip_app_space (s ws : str) :
  (forall c, c ∈ ws -> isspace c = true) -> rstrip (s ++ ws) = rstrip s.
Proof.
  intros Hws. unfold rstrip. rewrite rev_app_distr, drop_while_app_all; [reflexivity|].
  intros c Hc. apply Hws. apply list_elem_of_In. apply list_elem_of_In in Hc.
  apply in_rev. exact Hc.
Qed.

(** Whitespace at the end of a line does not change its stripped form. *)
Lemma strip_app_space (s ws : str) :
  (forall c, c ∈ ws -> isspace c = true) -> strip (s ++ ws) = strip s.
Proof.
  intros Hws. unfold strip, lstrip.
  destruct (drop_while isspace s) as [|c t] eqn:Hs.
  - assert (Hall : drop_while isspace (s ++ ws) = []).
    { assert (Hsp : forall c, c ∈ s -> isspace c = true).
      { clear Hws. induction s as [|c s IH]; intros d Hd.
        - apply elem_of_nil in Hd. destruct Hd.
        - simpl in Hs. destruct (isspace c) eqn:Hc; [|discriminate].
          apply elem_of_cons in Hd as [-> | Hd]; [exact Hc | apply IH; assumption]. }
      apply drop_while_all. intros c Hc. apply elem_of_app in Hc as [Hc | Hc]; auto. }
    rewrite Hall. reflexivity.
  - rewrite drop_while_stop by (rewrite Hs; discriminate). rewrite Hs.
    apply rstrip_app_space, Hws.
Qed.

Lemma drop_while_head (p : Z -> bool) (s : str) (c : Z) (t : str) :
  drop_while p s = c :: t -> p c = false.
Proof.
  induction s as [|d s IH]; simpl; [discriminate|].
  destruct (p d) eqn:Hd; [exact IH|]. intros [= <- _]. exact Hd.
Qed.

Lemma drop_while_fixed (p : Z -> bool) (s : str) :
  drop_while p (drop_while p s) = drop_while p s.
Proof.
  destruct (drop_while p s) as [|c t] eqn:Hs; [reflexivity|].
  simpl. rewrite (drop_while_head _ _ _ _ Hs). reflexivity.
Qed.

Lemma rstrip_fixed (s : str) : rstrip (rstrip s) = rstrip s.
Proof. unfold rstrip. rewrite rev_involutive, drop_while_fixed. reflexivity. Qed.

Lemma rstrip_cons (c : Z) (s : str) :
  isspace c = false -> rstrip (c :: s) = c :: rstrip s.
Proof.
  intros Hc. unfold rstrip. simpl rev.
  destruct (drop_while isspace (rev s)) as [|d t] eqn:Hs.
  - rewrite drop_while_app_all.
    + simpl. rewrite Hc. reflexivity.
    + intros x Hx. clear -Hs Hx. induction (rev s) as [|y l IH].
      * apply elem_of_nil in Hx. destruct Hx.
      * simpl in Hs. destruct (isspace y) eqn:Hy; [|discriminate].
        apply elem_of_cons in Hx as [-> | Hx]; [exact Hy | apply IH; assumption].
  - rewrite drop_while_stop by (rewrite Hs; discriminate). rewrite Hs.
    rewrite rev_app_distr. reflexivity.
Qed.

Lemma lstrip_rstrip (s : str) : lstrip (rstrip (lstrip s)) = rstrip (lstrip s).
Proof.
  unfold lstrip at 2 3. destruct (drop_while isspace s) as [|c t] eqn:Hs.
  - reflexivity.
  - pose proof (drop_while_head _ _ _ _ Hs) as Hc.
    rewrite (rstrip_cons _ _ Hc). unfold lstrip. simpl. rewrite Hc. reflexivity.
Qed.

(** Stripping twice is stripping once. *)
Lemma strip_idem (s : str) : strip (strip s) = strip s.
Proof.
  unfold strip at 1. rewrite (lstrip_rstrip s : lstrip (strip s) = strip s).
  apply rstrip_fixed.
Qed.

Lemma elem_of_drop_while (p : Z -> bool) (s : str) (c : Z) :
  c ∈ drop_while p s -> c ∈ s.
Proof.
  induction s as [|d s IH]; simpl; [trivial|].
  destruct (p d); [|trivial]. intros H. right. apply IH, H.
Qed.

Lemma elem_of_rev (l : str) (c : Z) : c ∈ rev l -> c ∈ l.
Proof.
  intros H. apply list_elem_of_In, in_rev. apply list_elem_of_In. exact H.
Qed.

Lemma elem_of_strip (s : str) (c : Z) : c ∈ strip s -> c ∈ s.
Proof.
  unfold strip, rstrip, lstrip. intros H.
  apply elem_of_rev, elem_of_drop_while, elem_of_rev in H.
  apply elem_of_drop_while in H. exact H.
Qed.

(** ** The response parser: what the result depends on *)

Lemma parse_line_strip (st : plant_info * option str) (raw raw' : str) :
  strip raw = strip raw' -> parse_line st raw = parse_line st raw'.
Proof.
  intros Heq. unfold parse_line. destruct st as [info cur]. rewrite Heq. reflexivity.
Qed.

Lemma run_strip (lines lines' : list str) (st : plant_info * option str) :
  Forall2 (fun a b => strip a = strip b) lines lines' ->
  for_each parse_line st lines = for_each parse_line st lines'.
Proof.
  intros Hall. revert st. induction Hall as [|a b la lb Hab _ IH]; intros st; cbn [for_each].
  - reflexivity.
  - rewrite (parse_line_strip st a b Hab).
    destruct (parse_line st b) as [st'|e]; cbn [mbind result_bind]; [apply IH | reflexivity].
Qed.

(** The lines of the CRLF text are the lines of the text, each but the last
    followed by a carriage return. *)
Lemma split_to_crlf (text : str) :
  Forall2 (fun l' l => l' = l \/ l' = l ++ [13])
          (split LF None (to_crlf text)) (split LF None text).
Proof.
  induction text as [|c text IH].
  - simpl. constructor; [left; reflexivity | constructor].
  - unfold to_crlf in *. cbn [flat_map]. destruct (Z.eqb_spec c LF) as [-> | Hc].
    + cbn. constructor; [right; reflexivity | exact IH].
    + cbn [app split]. destruct (Z.eqb_spec c LF) as [? | _]; [contradiction|].
      inversion IH as [|w' w ws' ws Hw Hws Heq' Heq].
      * constructor; [left; reflexivity | constructor].
      * constructor; [|exact Hws].
        destruct Hw as [-> | ->]; [left | right]; reflexivity.
Qed.

Lemma isspace_CR (c : Z) : c ∈ [13] -> isspace c = true.
Proof. intros H. apply list_elem_of_singleton in H. subst c. reflexivity. Qed.

(** X1: Windows line endings make no difference: the text with every line
    feed preceded by a carriage return parses to the same result. *)
Theorem crlf_same_result (text : str) :
  process_gemini_response (to_crlf text) = process_gemini_response text.
Proof.
  unfold process_gemini_response, process_lines.
  rewrite (run_strip (split LF None (to_crlf text)) (split LF None text)); [reflexivity|].
  eapply Forall2_impl; [apply split_to_crlf|].
  intros l' l [-> | ->]; [reflexivity|]. apply strip_app_space, isspace_CR.
Qed.

(** X2: the result depends on the recognized lines only: two texts with the
    same recognized lines, in the same order, parse to the same result,
    whatever other lines stand between them. *)
Theorem unrecognized_lines_ignored (text text' : str) :
  List.filter recognized (split LF None text)
  = List.filter recognized (split LF None text') ->
  process_gemini_response text = process_gemini_response text'.
Proof.
  intros Heq. unfold process_gemini_response, process_lines.
  rewrite (run_filter_recognized _ (split LF None text) initial_state_ok).
  rewrite (run_filter_recognized _ (split LF None text') initial_state_ok).
  rewrite Heq. reflexivity.
Qed.

Lemma unrecognized_lines_ignored_witness :
  process_gemini_response
    (u "Here is what I found:" ++ [LF; LF] ++ summer_example ++ [LF] ++ u "Enjoy!")
  = process_gemini_response summer_example.
Proof.
  apply unrecognized_lines_ignored. vm_compute. reflexivity.
Defined.

(** ** The response parser: invariants of the result *)

Lemma step_hindi_name (st st' : plant_info * option str) (raw : str) :
  step st raw st' ->
  hindi_name st.1 = u "Not available" \/ (lower (hindi_name st.1) ∉ absent_names) ->
  hindi_name st'.1 = u "Not available" \/ (lower (hindi_name st'.1) ∉ absent_names).
Proof.
  intros Hstep Hinv. inversion Hstep; subst; simpl in *; try exact Hinv.
  destruct (bool_decide _) eqn:Hb; [exact Hinv|].
  right. simpl. apply bool_decide_eq_false in Hb. exact Hb.
Qed.

(** X3: [hindi_name] is the default ["Not available"] or a value that is
    none of the sentinels in any letter case; in particular it is never
    empty. *)
Theorem hindi_name_never_sentinel (text : str) :
  exists info,
    process_gemini_response text = Ok info /\
    (hindi_name info = u "Not available" \/
     (lower (hindi_name info) ∉ absent_names)) /\
    hindi_name info <> [].
Proof.
  unfold process_gemini_response, process_lines.
  destruct (for_each_inv parse_line
              (fun st => state_ok st /\
                 (hindi_name st.1 = u "Not available" \/
                  (lower (hindi_name st.1) ∉ absent_names))))
    with (xs := split LF None text) (st := (initial_plant_info, @None str))
    as ([info cur] & -> & _ & Hinv).
  - intros st raw [Hok Hinv].
    destruct (parse_line_step st raw Hok) as (st' & Hrun & Hstep & Hok').
    exists st'. split; [exact Hrun|]. split; [exact Hok'|].
    apply (step_hindi_name _ _ _ Hstep Hinv).
  - split; [exact initial_state_ok | left; reflexivity].
  - exists info. split; [reflexivity|]. split; [exact Hinv|].
    simpl in Hinv. intros Hempty. rewrite Hempty in Hinv.
    destruct Hinv as [Hinv | Hinv]; [discriminate Hinv|].
    apply Hinv. apply (bool_decide_unpack _). vm_compute. exact I.
Qed.

Lemma split_no_sep (sep : Z) (s l : str) :
  l ∈ split sep None s -> sep ∉ l.
Proof.
  revert l. induction s as [|c s IH]; intros l; cbn [split].
  - intros Hl. apply list_elem_of_singleton in Hl. subst l. apply not_elem_of_nil.
  - destruct (Z.eqb_spec c sep) as [-> | Hc]; cbn [fmap option_fmap option_map].
    + intros Hl. apply elem_of_cons in Hl as [-> | Hl]; [apply not_elem_of_nil|].
      apply IH, Hl.
    + destruct (split sep None s) as [|w ws] eqn:Hs.
      * intros Hl. apply list_elem_of_singleton in Hl. subst l.
        apply not_elem_of_cons. split; [congruence | apply not_elem_of_nil].
      * intros Hl. apply elem_of_cons in Hl as [-> | Hl].
        -- apply not_elem_of_cons. split; [congruence | apply IH; left].
        -- apply IH. right. exact Hl.
Qed.

Lemma tidy_strip (s : str) : (LF ∉ s) -> tidy (strip s).
Proof.
  intros Hs. split; [apply strip_idem|]. intros H. apply Hs, elem_of_strip, H.
Qed.

Ltac info_simpl :=
  cbn [fst snd care_instructions common_name hindi_name set_common_name
       set_hindi_name set_care_instructions] in *.

Lemma step_tidy (st st' : plant_info * option str) (raw : str) :
  step st raw st' -> (LF ∉ raw) -> tidy_info st.1 -> tidy_info st'.1.
Proof.
  intros Hstep Hraw (Hcn & Hhn & Htips).
  assert (Hline : LF ∉ strip raw) by (intros Hx; apply Hraw, elem_of_strip, Hx).
  destruct Hstep as [info cur raw Hc
                    | info cur raw before after Hc Hh Heq Hnot
                    | info cur raw season' Hsh Hin Hs
                    | info raw section tips0 Hsh Htl Hlook0
                    | info cur raw Hc Hh Hs Hb]; info_simpl.
  - split; [|split; assumption]. apply tidy_strip.
    intros Hx. apply Hline. apply (subseteq_drop 12 (strip raw)). exact Hx.
  - destruct (bool_decide _); [split; [|split]; assumption|].
    split; [exact Hcn|]. split; [|exact Htips]. simpl. apply tidy_strip.
    intros Hx. apply Hline. rewrite Heq.
    apply elem_of_app. right. right. exact Hx.
  - split; [|split]; assumption.
  - split; [exact Hcn|]. split; [exact Hhn|]. intros season tips' t Hlook Ht.
    info_simpl.
    destruct (decide (section = season)) as [-> | Hne].
    + rewrite lookup_insert_eq in Hlook. injection Hlook as <-.
      apply elem_of_app in Ht as [Ht | Ht].
      * eapply Htips; eassumption.
      * apply list_elem_of_singleton in Ht. subst t. unfold bullet_text.
        apply tidy_strip. intros Hx. apply Hline.
        unfold lstrip_chars in Hx. apply elem_of_drop_while in Hx. exact Hx.
    + rewrite lookup_insert_ne in Hlook by exact Hne. eapply Htips; eassumption.
  - split; [|split]; assumption.
Qed.

Lemma initial_tidy : tidy_info initial_plant_info.
Proof.
  split; [|split].
  - split; [vm_compute; reflexivity|]. apply (bool_decide_unpack _). vm_compute. exact I.
  - split; [vm_compute; reflexivity|]. apply (bool_decide_unpack _). vm_compute. exact I.
  - intros season tips t Hlook Ht. exfalso.
    assert (Hin : season ∈ seasons).
    { apply elem_of_season_keys. rewrite <- initial_dom. apply elem_of_dom. eauto. }
    unfold seasons in Hin. rewrite !elem_of_cons, elem_of_nil in Hin.
    destruct Hin as [-> | [-> | [-> | [-> | []]]]];
      vm_compute in Hlook; injection Hlook as <-;
      apply elem_of_nil in Ht; exact Ht.
Qed.

Lemma run_tidy (lines : list str) (st : plant_info * option str) :
  state_ok st -> tidy_info st.1 -> (forall l, l ∈ lines -> LF ∉ l) ->
  exists st', for_each parse_line st lines = Ok st' /\ tidy_info st'.1.
Proof.
  revert st. induction lines as [|raw lines IH]; intros st Hok Htidy Hlines.
  - exists st. auto.
  - destruct (parse_line_step st raw Hok) as (st1 & Hrun & Hstep & Hok1).
    destruct (IH st1 Hok1) as (st' & Hrun' & Htidy').
    + apply (step_tidy _ _ _ Hstep); [apply Hlines; left | exact Htidy].
    + intros l Hl. apply Hlines. right. exact Hl.
    + exists st'. cbn [for_each]. rewrite Hrun. cbn [mbind result_bind]. auto.
Qed.

(** X4: neither name and no tip of the result has whitespace at either end
    or a line feed in it. *)
Theorem result_is_tidy (text : str) :
  exists info, process_gemini_response text = Ok info /\ tidy_info info.
Proof.
  unfold process_gemini_response, process_lines.
  destruct (run_tidy (split LF None text) _ initial_state_ok initial_tidy)
    as ([info cur] & -> & Htidy).
  - intros l Hl. apply (split_no_sep LF text l Hl).
  - exists info. split; [reflexivity | exact Htidy].
Qed.

(** ** The response parser: the tips of a season *)

Lemma header_season_unique (raw season : str) :
  season ∈ seasons ->
  startswith (strip raw) (season ++ u " Care:") = true ->
  header_season raw = Some season.
Proof.
  intros Hin Hs. unfold header_season. apply startswith_spec in Hs as [rest ->].
  unfold seasons in *. rewrite !elem_of_cons, elem_of_nil in Hin.
  destruct Hin as [-> | [-> | [-> | [-> | []]]]]; reflexivity.
Qed.

Lemma tip_line_not_common (raw : str) :
  is_common_name_line (strip raw) = true -> is_tip_line raw = false.
Proof.
  intros Hc. unfold is_tip_line.
  destruct (is_bullet_line (strip raw)) eqn:Hb; [|reflexivity].
  rewrite (bullet_line_not_common _ Hb) in Hc. discriminate.
Qed.

Lemma step_collect (st st' : plant_info * option str) (raw season : str)
      (tips : list str) (rest : list str) :
  step st raw st' ->
  care_instructions st.1 !! season = Some tips ->
  exists added,
    care_instructions st'.1 !! season = Some (tips ++ added) /\
    collect season st.2 (raw :: rest) = added ++ collect season st'.2 rest.
Proof.
  intros Hstep Htips. cbn [collect].
  destruct Hstep as [info cur raw Hc
                    | info cur raw before after Hc Hh Heq Hnot
                    | info cur raw season' Hsh Hin Hs
                    | info raw section tips0 Hsh Htl Hlook0
                    | info cur raw Hc Hh Hs Hb]; info_simpl.
  - exists []. rewrite app_nil_r. split; [exact Htips|].
    unfold is_section_header. rewrite Hc, (tip_line_not_common _ Hc). reflexivity.
  - exists []. rewrite app_nil_r. split; [destruct (bool_decide _); exact Htips|].
    unfold is_section_header, is_tip_line. rewrite Hc, Hh. cbn.
    rewrite andb_false_r. reflexivity.
  - exists []. rewrite app_nil_r. split; [exact Htips|].
    rewrite Hsh, (header_season_unique _ _ Hin Hs). reflexivity.
  - rewrite Hsh, Htl. cbn [andb].
    destruct (decide (section = season)) as [-> | Hne].
    + rewrite bool_decide_eq_true_2 by reflexivity.
      rewrite lookup_insert_eq. replace tips0 with tips by congruence.
      exists [bullet_text (strip raw)]. split; reflexivity.
    + rewrite bool_decide_eq_false_2 by congruence.
      rewrite lookup_insert_ne by exact Hne.
      exists []. rewrite app_nil_r. split; [exact Htips | reflexivity].
  - exists []. rewrite app_nil_r. split; [exact Htips|].
    unfold is_section_header, is_tip_line. rewrite Hc, Hh, Hs. cbn [negb andb].
    destruct Hb as [-> | ->]; [|reflexivity].
    rewrite bool_decide_eq_false_2 by discriminate. rewrite andb_false_r. reflexivity.
Qed.

Lemma run_collect (lines : list str) (st : plant_info * option str)
      (season : str) (tips : list str) :
  state_ok st ->
  care_instructions st.1 !! season = Some tips ->
  exists st',
    for_each parse_line st lines = Ok st' /\
    care_instructions st'.1 !! season = Some (tips ++ collect season st.2 lines).
Proof.
  revert st tips. induction lines as [|raw lines IH]; intros st tips Hok Htips.
  - exists st. cbn. rewrite app_nil_r. auto.
  - destruct (parse_line_step st raw Hok) as (st1 & Hrun & Hstep & Hok1).
    destruct (step_collect _ _ _ _ _ lines Hstep Htips) as (added & Ha & Hc).
    destruct (IH st1 _ Hok1 Ha) as (st' & Hrun' & Htips').
    exists st'. cbn [for_each]. rewrite Hrun. cbn [mbind result_bind].
    split; [exact Hrun'|]. rewrite Htips', Hc, app_assoc. reflexivity.
Qed.



(** ** The response parser: a season header that occurs twice *)

Lemma collect_app_header (season : str) (cur : option str)
      (lines rest : list str) (hdr : str) :
  is_section_header hdr = true ->
  collect season cur (lines ++ hdr :: rest)
  = collect season cur lines ++ collect season (header_season hdr) rest.
Proof.
  intros Hh. revert cur. induction lines as [|raw lines IH]; intros cur.
  - cbn [app collect]. rewrite Hh. reflexivity.
  - cbn [app collect]. destruct (is_section_header raw); [apply IH|].
    destruct (is_tip_line raw && bool_decide (cur = Some season)).
    + rewrite IH. reflexivity.
    + apply IH.
Qed.

Lemma tip_line_not_header (raw : str) :
  is_tip_line raw = true -> is_section_header raw = false.
Proof.
  unfold is_tip_line, is_section_header. cbn zeta.
  intros [Hb _]%andb_true_iff.
  rewrite (bullet_line_not_header _ Hb). apply andb_false_r.
Qed.

Lemma collect_tips (season : str) (bs rest : list str) :
  (forall b, b ∈ bs -> is_tip_line b = true) ->
  collect season (Some season) (bs ++ rest)
  = map (fun b => bullet_text (strip b)) bs ++ collect season (Some season) rest.
Proof.
  induction bs as [|b bs IH]; intros Hall; [reflexivity|].
  assert (Hb : is_tip_line b = true) by (apply Hall; left).
  cbn [app collect map]. rewrite (tip_line_not_header _ Hb), Hb.
  rewrite bool_decide_eq_true_2 by reflexivity. cbn [andb].
  rewrite IH; [reflexivity|]. intros x Hx. apply Hall. right. exact Hx.
Qed.

(** C9, as the code has it: when a line the parser takes as a section
    header names the same season twice, with lines the parser takes as tips
    under each occurrence and any recognized lines before, in between and
    after, the parser returns, the second occurrence leaves the cursor on
    that season, and the season's list is, in input order: the season's tips
    from the lines before the first occurrence, the tips under the first
    occurrence, the season's tips from the lines in between, the tips under
    the second occurrence, and the season's tips from the lines after.  The
    season's tips of a run of lines are those [collect] reads off it. *)
Theorem repeated_header_accumulates (text hdr1 hdr2 season : str)
        (pre bs1 mid bs2 post : list str) :
  List.filter recognized (split LF None text)
  = pre ++ [hdr1] ++ bs1 ++ mid ++ [hdr2] ++ bs2 ++ post ->
  season ∈ seasons ->
  is_section_header hdr1 = true ->
  startswith (strip hdr1) (season ++ u " Care:") = true ->
  is_section_header hdr2 = true ->
  startswith (strip hdr2) (season ++ u " Care:") = true ->
  (forall b, b ∈ bs1 -> is_tip_line b = true) ->
  (forall b, b ∈ bs2 -> is_tip_line b = true) ->
  exists info1 info,
    process_lines (pre ++ [hdr1] ++ bs1 ++ mid ++ [hdr2])
    = Ok (info1, Some season) /\
    process_gemini_response text = Ok info /\
    care_instructions info !! season
    = Some (collect season None pre
            ++ map (fun b => bullet_text (strip b)) bs1
            ++ collect season (Some season) mid
            ++ map (fun b => bullet_text (strip b)) bs2
            ++ collect season (Some season) post).
Proof.
  intros Hlines Hin Hh1 Hs1 Hh2 Hs2 Hb1 Hb2.
  assert (Hinit : care_instructions (initial_plant_info, @None str).1 !! season
                  = Some []).
  { unfold seasons in Hin. rewrite !elem_of_cons, elem_of_nil in Hin.
    destruct Hin as [-> | [-> | [-> | [-> | []]]]]; reflexivity. }
  destruct (run_ok (initial_plant_info, None)
              (pre ++ [hdr1] ++ bs1 ++ mid) initial_state_ok)
    as ([info1 cur1] & Hrun1 & Hdom1 & _).
  simpl in Hdom1.
  destruct (run_collect (List.filter recognized (split LF None text))
              (initial_plant_info, None) season [] initial_state_ok Hinit)
    as ([info cur] & Hrun & Htips).
  exists info1, info. split; [|split].
  - unfold process_lines.
    replace (pre ++ [hdr1] ++ bs1 ++ mid ++ [hdr2])
      with ((pre ++ [hdr1] ++ bs1 ++ mid) ++ [hdr2])
      by (rewrite <- !app_assoc; reflexivity).
    rewrite for_each_app, Hrun1. cbn [mbind result_bind for_each].
    rewrite (parse_line_section_header _ _ _ _ Hdom1 Hh2 Hin Hs2). reflexivity.
  - unfold process_gemini_response, process_lines.
    rewrite (run_filter_recognized _ _ initial_state_ok), Hrun. reflexivity.
  - cbn [fst snd] in Htips. rewrite Htips, Hlines. cbn [app]. f_equal.
    rewrite (collect_app_header season None pre _ hdr1 Hh1).
    rewrite (header_season_unique _ _ Hin Hs1).
    rewrite (collect_tips season bs1 _ Hb1).
    rewrite (collect_app_header season (Some season) mid _ hdr2 Hh2).
    rewrite (header_season_unique _ _ Hin Hs2).
    rewrite (collect_tips season bs2 _ Hb2). reflexivity.
Qed.

Lemma repeated_header_accumulates_witness :
  exists info,
    process_gemini_response summer_twice_example = Ok info /\
    care_instructions info !! Summer
    = Some [u "Water weekly"; u "Keep in shade"].
Proof.
  destruct (repeated_header_accumulates summer_twice_example
              summer_header summer_header Summer
              [] [water_bullet] [u "Winter Care:"; BULLET :: u " Less water"]
              [shade_bullet]
              [u "Monsoon Care:"; BULLET :: u " Check drainage"])
    as (info1 & info & _ & Hrun & Htips).
  - vm_compute. reflexivity.
  - apply (bool_decide_unpack _). vm_compute. exact I.
  - vm_compute. reflexivity.
  - vm_compute. reflexivity.
  - vm_compute. reflexivity.
  - vm_compute. reflexivity.
  - intros b Hb. apply list_elem_of_singleton in Hb. subst b. vm_compute. reflexivity.
  - intros b Hb. apply list_elem_of_singleton in Hb. subst b. vm_compute. reflexivity.
  - exists info. split; [exact Hrun|]. rewrite Htips. vm_compute. reflexivity.
Defined.

(** C9 as stated fails when the second header line contains a Hindi-name
    phrase: the line begins with ["Summer Care:"], but the second branch
    takes it, so it sets [hindi_name], the cursor stays on Winter, and the
    bullet under it is appended to the Winter list, not to the Summer list. *)
Lemma hindi_phrase_header_keeps_section :
  List.filter recognized (split LF None hindi_header_example)
  = [summer_header; water_bullet; u "Winter Care:"; BULLET :: u " Less water";
     hindi_summer_header; shade_bullet] /\
  startswith (strip hindi_summer_header) (Summer ++ u " Care:") = true /\
  is_bullet_line (strip shade_bullet) = true /\
  process_gemini_response hindi_header_example
  = Ok (set_hindi_name (u "(in Hindi: Garmi)")
          (set_care_instructions
             (<[Winter := [u "Less water"; u "Keep in shade"]]>
                (<[Summer := [u "Water weekly"]]>
                   (care_instructions initial_plant_info)))
             initial_plant_info)) /\
  [u "Water weekly"]
  <> [bullet_text (strip water_bullet); bullet_text (strip shade_bullet)].
Proof.
  repeat split; try (vm_compute; reflexivity).
  vm_compute. discriminate.
Qed.

(** ** [display_plant_info] *)

Lemma display_tabs_ok (ci : gmap str (list str)) (labels : list str) :
  (forall s, s ∈ labels -> is_Some (ci !! s)) ->
  (display_tabs ci labels).2 = Ok tt.
Proof.
  induction labels as [|s labels IH]; intros Hall; cbn [display_tabs]; [reflexivity|].
  destruct (Hall s ltac:(left)) as [tips Htips]. unfold getitem. rewrite Htips.
  specialize (IH (fun s' Hs' => Hall s' ltac:(right; exact Hs'))).
  destruct (display_tabs ci labels) as [events r]. exact IH.
Qed.


Lemma display_result (info : plant_info) :
  (display_plant_info info).2 = (display_tabs (care_instructions info) seasons).2.
Proof.
  unfold display_plant_info.
  destruct (display_tabs (care_instructions info) seasons). reflexivity.
Qed.


(** X7: the page for a parsed response is always drawn to the end: on the
    result of [process_gemini_response], [display_plant_info] never raises. *)
Theorem display_after_parse (text : str) :
  exists info events,
    process_gemini_response text = Ok info /\
    display_plant_info info = (events, Ok tt).
Proof.
  unfold process_gemini_response, process_lines.
  destruct (run_ok _ (split LF None text) initial_state_ok)
    as ([info cur] & -> & Hdom & _).
  cbn [fst] in Hdom. exists info.
  assert (Hok : (display_plant_info info).2 = Ok tt).
  { rewrite display_result. apply display_tabs_ok.
    intros s Hs. destruct (season_lookup _ _ Hdom Hs) as [tips ->]. eauto. }
  destruct (display_plant_info info) as [events r]. cbn [snd] in Hok. subst r.
  exists events. split; reflexivity.
Qed.

Lemma filter_tab_body (season s : str) (tips : list str) :
  List.filter (in_tab season) (tab_body s tips)
  = if bool_decide (s = season) then tab_body s tips else [].
Proof.
  assert (Hmap : forall l : list str,
            List.filter (in_tab season)
              (map (fun tip => st_markdown (Tab s) ([BULLET; SPACE] ++ tip) false) l)
            = if bool_decide (s = season)
              then map (fun tip => st_markdown (Tab s) ([BULLET; SPACE] ++ tip) false) l
              else []).
  { induction l as [|t l IH]; cbn [map List.filter in_tab].
    - destruct (bool_decide _); reflexivity.
    - rewrite IH. destruct (bool_decide _); reflexivity. }
  destruct tips as [|t tips]; cbn [tab_body].
  - cbn. destruct (bool_decide _); reflexivity.
  - rewrite !List.filter_app, Hmap. cbn [List.filter in_tab].
    destruct (bool_decide _); reflexivity.
Qed.

Lemma filter_display_tabs (ci : gmap str (list str)) (labels : list str)
      (season : str) (tips : list str) :
  NoDup labels -> (forall s, s ∈ labels -> is_Some (ci !! s)) ->
  ci !! season = Some tips ->
  List.filter (in_tab season) (display_tabs ci labels).1
  = if bool_decide (season ∈ labels) then tab_body season tips else [].
Proof.
  intros Hnd Hall Htips. induction Hnd as [|s labels Hs Hnd IH]; cbn [display_tabs].
  - reflexivity.
  - destruct (Hall s ltac:(left)) as [tips' Htips']. unfold getitem. rewrite Htips'.
    specialize (IH (fun s' Hs' => Hall s' ltac:(right; exact Hs'))).
    destruct (display_tabs ci labels) as [events r]. cbn [fst] in *.
    rewrite List.filter_app, filter_tab_body, IH.
    destruct (decide (s = season)) as [-> | Hne].
    + rewrite bool_decide_eq_true_2 by reflexivity.
      rewrite (bool_decide_eq_true_2 (season ∈ season :: labels)) by left.
      rewrite (bool_decide_eq_false_2 (season ∈ labels)) by exact Hs.
      rewrite app_nil_r. congruence.
    + rewrite bool_decide_eq_false_2 by exact Hne. cbn [app].
      destruct (decide (season ∈ labels)) as [Hin | Hnin].
      * rewrite !bool_decide_eq_true_2; [reflexivity | right; exact Hin | exact Hin].
      * rewrite !bool_decide_eq_false_2; [reflexivity | | exact Hnin].
        intros Hin. apply elem_of_cons in Hin as [-> | Hin]; [congruence | auto].
Qed.

(** X8: what a season's tab shows: with no tip, the one sentence that no
    tips are available; otherwise the opening tag, every tip once and in
    order as a line ["• tip"], and the closing tag.  No tip is shown in
    another season's tab. *)
Theorem display_tab_content (info : plant_info) (season : str) (tips : list str) :
  (forall s, s ∈ seasons -> is_Some (care_instructions info !! s)) ->
  season ∈ seasons ->
  care_instructions info !! season = Some tips ->
  List.filter (in_tab season) (display_plant_info info).1 = tab_body season tips.
Proof.
  intros Hall Hin Htips. unfold display_plant_info.
  pose proof (filter_display_tabs (care_instructions info) seasons season tips) as Hf.
  destruct (display_tabs (care_instructions info) seasons) as [events r].
  cbn [fst] in *. rewrite List.filter_app. cbn [List.filter in_tab app].
  rewrite Hf; try assumption.
  - rewrite bool_decide_eq_true_2 by exact Hin. reflexivity.
  - apply (bool_decide_unpack _). vm_compute. exact I.
Qed.

Lemma display_tab_content_witness :
  List.filter (in_tab Summer)
    (display_plant_info
       (set_care_instructions
          (<[Summer := [u "Water weekly"; u "Keep in shade"]]>
             (care_instructions initial_plant_info))
          initial_plant_info)).1
  = tab_body Summer [u "Water weekly"; u "Keep in shade"].
Proof.
  apply display_tab_content.
  - intros s Hs. unfold seasons in Hs. rewrite !elem_of_cons, elem_of_nil in Hs.
    destruct Hs as [-> | [-> | [-> | [-> | []]]]]; vm_compute; eauto.
  - apply (bool_decide_unpack _). vm_compute. exact I.
  - vm_compute. reflexivity.
Defined.

Lemma common_name_from_last_line (lines pre post : list str) (raw : str) :
  lines = pre ++ raw :: post ->
  is_common_name_line (strip raw) = true ->
  (forall r, r ∈ post -> is_common_name_line (strip r) = false) ->
  exists info cur,
    process_lines lines = Ok (info, cur) /\ state_ok (info, cur) /\
    common_name info = strip (drop 12 (strip raw)).
Proof.
  intros -> Hc Hpost. unfold process_lines. rewrite for_each_app.
  destruct (run_ok _ pre initial_state_ok) as ([info0 cur0] & -> & Hok0).
  cbn [mbind result_bind for_each]. rewrite (parse_line_common _ _ _ Hc).
  cbn [mbind result_bind].
  assert (Hok1 : state_ok (set_common_name (strip (drop 12 (strip raw))) info0, cur0)).
  { destruct Hok0 as [Hdom Hcur]. split; assumption. }
  destruct (run_keeps_common_name post _ Hok1 Hpost) as ([info cur] & Hrun & Hname).
  destruct (run_ok _ post Hok1) as (st' & Hrun' & Hok').
  rewrite Hrun in Hrun'. injection Hrun' as <-.
  exists info, cur. rewrite Hrun. auto.
Qed.

(** X9: the common name reaches the page as it stands in the response: the
    stripped text after the label of the last common-name line is placed,
    unescaped, into the markup of the first name box, which is drawn with
    [unsafe_allow_html=True]. *)
Theorem common_name_shown_verbatim (text raw : str) (pre post : list str) :
  split LF None text = pre ++ raw :: post ->
  is_common_name_line (strip raw) = true ->
  (forall r, r ∈ post -> is_common_name_line (strip r) = false) ->
  exists info events,
    process_gemini_response text = Ok info /\
    display_plant_info info = (events, Ok tt) /\
    st_markdown (Column 0)
      (info_box (u "Common Name") (strip (drop 12 (strip raw)))) true ∈ events.
Proof.
  intros Hlines Hc Hpost.
  destruct (common_name_from_last_line _ pre post raw Hlines Hc Hpost)
    as (info & cur & Hrun & [Hdom _] & Hname).
  cbn [fst] in Hdom. exists info.
  assert (Hok : (display_plant_info info).2 = Ok tt).
  { rewrite display_result. apply display_tabs_ok.
    intros s Hs. destruct (season_lookup _ _ Hdom Hs) as [tips ->]. eauto. }
  assert (Hev : st_markdown (Column 0)
                  (info_box (u "Common Name") (strip (drop 12 (strip raw)))) true
                ∈ (display_plant_info info).1).
  { unfold display_plant_info. rewrite Hname.
    destruct (display_tabs (care_instructions info) seasons) as [ev r].
    cbn [fst]. cbn [app]. right. right. left. }
  destruct (display_plant_info info) as [events r]. cbn [fst snd] in *. subst r.
  exists events. split; [|split; [reflexivity | exact Hev]].
  unfold process_gemini_response. rewrite Hrun. reflexivity.
Qed.

Lemma common_name_shown_verbatim_witness :
  exists info events,
    process_gemini_response (u "Common Name: <b>Rose</b>") = Ok info /\
    display_plant_info info = (events, Ok tt) /\
    st_markdown (Column 0) (info_box (u "Common Name") (u "<b>Rose</b>")) true
    ∈ events.
Proof.
  apply (common_name_shown_verbatim (u "Common Name: <b>Rose</b>")
           (u "Common Name: <b>Rose</b>") [] []).
  - vm_compute. reflexivity.
  - vm_compute. reflexivity.
  - intros r Hr. apply elem_of_nil in Hr. destruct Hr.
Defined.

(** ** The format the prompt asks for *)

(** Blank lines and the whitespace around a line make no difference. *)
Lemma run_content (lines : list str) (st : plant_info * option str) :
  for_each parse_line st lines = for_each parse_line st (content_lines lines).
Proof.
  unfold content_lines. revert st.
  induction lines as [|raw lines IH]; intros st; [reflexivity|].
  cbn [map List.filter for_each]. destruct (strip raw) as [|c line] eqn:Hraw.
  - assert (Hskip : parse_line st raw = Ok st).
    { unfold parse_line. destruct st as [info cur]. rewrite Hraw. reflexivity. }
    rewrite Hskip. cbn [truthy mbind result_bind]. apply IH.
  - cbn [truthy for_each]. rewrite <- Hraw.
    rewrite (parse_line_strip st (strip raw) raw (strip_idem raw)).
    destruct (parse_line st raw) as [st'|e]; cbn [mbind result_bind];
      [apply IH | reflexivity].
Qed.

Lemma rstrip_app_keep (a b : str) :
  rstrip b = b -> b <> [] -> rstrip (a ++ b) = a ++ b.
Proof.
  unfold rstrip. intros Hb Hne. rewrite rev_app_distr, drop_while_stop.
  - rewrite rev_app_distr, rev_involutive, Hb. reflexivity.
  - intros Hnil. rewrite Hnil in Hb. simpl in Hb. congruence.
Qed.

Lemma strip_after_label (t : str) : strip t = t -> strip (after_label t) = t.
Proof. intros Ht. destruct t as [|d t]; [reflexivity | exact Ht]. Qed.

(** A label, a space and a stripped value: stripping removes the space only
    when the value is empty. *)
Lemma strip_label (c : Z) (p t : str) :
  isspace c = false -> rstrip (c :: p) = c :: p -> strip t = t ->
  strip ((c :: p) ++ SPACE :: t) = (c :: p) ++ after_label t.
Proof.
  intros Hc Hp Ht.
  assert (Hl : strip ((c :: p) ++ SPACE :: t) = rstrip ((c :: p) ++ SPACE :: t)).
  { unfold strip, lstrip. simpl. rewrite Hc. reflexivity. }
  rewrite Hl. destruct t as [|d t].
  - cbn [after_label]. rewrite app_nil_r.
    rewrite rstrip_app_space; [exact Hp|].
    intros x Hx. apply list_elem_of_singleton in Hx. subst x. reflexivity.
  - cbn [after_label].
    pose proof (stripped_head d t Ht) as Hd.
    assert (Hr : rstrip (d :: t) = d :: t).
    { unfold strip, lstrip in Ht. simpl in Ht. rewrite Hd in Ht. exact Ht. }
    apply rstrip_app_keep; [|discriminate].
    apply (rstrip_app_keep [SPACE] (d :: t) Hr). discriminate.
Qed.

(** A bullet line of the format is taken as a tip, and the tip it carries
    is the one written. *)
Lemma format_tip_line (t : str) :
  plain_tip t ->
  is_tip_line ([BULLET; SPACE] ++ t) = true /\
  bullet_text (strip ([BULLET; SPACE] ++ t)) = t.
Proof.
  intros (Ht & Hb & Hh).
  assert (Hs : strip ([BULLET; SPACE] ++ t) = [BULLET] ++ after_label t).
  { apply (strip_label BULLET [] t); [reflexivity | reflexivity | exact Ht]. }
  split.
  - unfold is_tip_line. cbn zeta. rewrite Hs.
    assert (Hh' : is_hindi_line ([BULLET] ++ after_label t) = is_hindi_line t).
    { destruct t as [|d t]; reflexivity. }
    rewrite Hh', Hh. reflexivity.
  - rewrite Hs. destruct t as [|d t].
    + reflexivity.
    + apply (bullet_text_marker [SPACE] (d :: t)); [|exact Ht|exact Hb].
      intros x Hx. apply list_elem_of_singleton in Hx. subst x. reflexivity.
Qed.

(** A section of the format appends its tips to those of its season. *)
Lemma run_format_section (info : plant_info) (cur : option str)
      (season : str) (old tips : list str) :
  dom (care_instructions info) = season_keys ->
  season ∈ seasons ->
  care_instructions info !! season = Some old ->
  Forall plain_tip tips ->
  for_each parse_line (info, cur) (format_section season tips)
  = Ok (set_care_instructions
          (<[season := old ++ tips]> (care_instructions info)) info,
        Some season).
Proof.
  intros Hdom Hin Hold Htips. unfold format_section. cbn [for_each].
  assert (Hhead : is_section_header (season ++ u " Care:") = true /\
                  startswith (strip (season ++ u " Care:")) (season ++ u " Care:") = true).
  { unfold seasons in Hin.
    rewrite !elem_of_cons, elem_of_nil in Hin.
    destruct Hin as [-> | [-> | [-> | [-> | []]]]]; split; vm_compute; reflexivity. }
  destruct Hhead as [Hsh Hsw].
  rewrite (parse_line_section_header info cur _ season Hdom Hsh Hin Hsw).
  cbn [mbind result_bind].
  rewrite (run_tips _ info season old Hdom Hin Hold).
  - rewrite map_map.
    assert (Hid : map (fun tip => bullet_text (strip ([BULLET; SPACE] ++ tip))) tips = tips).
    { clear -Htips. induction Htips as [|t tips Ht _ IH]; [reflexivity|].
      cbn [map]. rewrite IH. f_equal. apply (format_tip_line t Ht). }
    rewrite Hid. reflexivity.
  - intros b Hb. apply list_elem_of_fmap in Hb as (t & -> & Ht).
    rewrite Forall_forall in Htips. apply format_tip_line, Htips, Ht.
Qed.

Lemma run_format_lines (cn hn : str) (sp su mo wi : list str) :
  strip cn = cn -> strip hn = hn -> (lower hn ∉ absent_names) ->
  Forall plain_tip sp -> Forall plain_tip su ->
  Forall plain_tip mo -> Forall plain_tip wi ->
  for_each parse_line (initial_plant_info, None) (format_lines cn hn sp su mo wi)
  = Ok (PlantInfo cn hn
          (<[Winter := wi]> (<[Monsoon := mo]> (<[Summer := su]> (<[Spring := sp]>
             (care_instructions initial_plant_info))))),
        Some Winter).
Proof.
  intros Hcn Hhn Habs Hsp Hsu Hmo Hwi. unfold format_lines.
  cbn [app for_each].
  (* Common Name *)
  assert (Hc : strip (u "Common Name: " ++ cn) = u "Common Name:" ++ after_label cn).
  { apply (strip_label 67 (u "ommon Name:") cn); [reflexivity | reflexivity | exact Hcn]. }
  rewrite (parse_line_common initial_plant_info None (u "Common Name: " ++ cn))
    by (rewrite Hc; reflexivity).
  rewrite Hc.
  change (drop 12 (u "Common Name:" ++ after_label cn)) with (after_label cn).
  rewrite (strip_after_label cn Hcn). cbn [mbind result_bind].
  (* Hindi Name *)
  assert (Hh : strip (u "Hindi Name: " ++ hn) = u "Hindi Name" ++ COLON :: after_label hn).
  { apply (strip_label 72 (u "indi Name:") hn); [reflexivity | reflexivity | exact Hhn]. }
  rewrite (parse_line_hindi _ None (u "Hindi Name: " ++ hn) (u "Hindi Name") (after_label hn));
    [ | rewrite Hh; reflexivity | rewrite Hh; reflexivity | exact Hh
      | intros Hin; vm_compute in Hin; clear -Hin;
        repeat (apply elem_of_cons in Hin as [Hin | Hin]; [discriminate|]);
        apply elem_of_nil in Hin; exact Hin ].
  rewrite (strip_after_label hn Hhn), (bool_decide_false _ Habs).
  cbn [mbind result_bind].
  (* the empty line *)
  assert (Hblank : forall st : plant_info * option str, parse_line st [] = Ok st).
  { intros [i c]. reflexivity. }
  rewrite Hblank. cbn [mbind result_bind].
  set (info0 := set_hindi_name hn (set_common_name cn initial_plant_info)).
  assert (HSp : Spring ∈ seasons) by (unfold seasons; rewrite !elem_of_cons; auto).
  assert (HSu : Summer ∈ seasons) by (unfold seasons; rewrite !elem_of_cons; auto).
  assert (HMo : Monsoon ∈ seasons) by (unfold seasons; rewrite !elem_of_cons; auto).
  assert (HWi : Winter ∈ seasons) by (unfold seasons; rewrite !elem_of_cons; auto).
  assert (Hne1 : Spring <> Summer) by discriminate.
  assert (Hne2 : Spring <> Monsoon) by discriminate.
  assert (Hne3 : Spring <> Winter) by discriminate.
  assert (Hne4 : Summer <> Monsoon) by discriminate.
  assert (Hne5 : Summer <> Winter) by discriminate.
  assert (Hne6 : Monsoon <> Winter) by discriminate.
  (* Spring *)
  rewrite for_each_app.
  rewrite (run_format_section info0 None Spring [] sp initial_dom HSp eq_refl Hsp).
  cbn [mbind result_bind app for_each]. rewrite Hblank. cbn [mbind result_bind].
  (* Summer *)
  rewrite for_each_app.
  rewrite (run_format_section _ (Some Spring) Summer [] su);
    [ | cbn [care_instructions set_care_instructions];
        apply season_insert_dom; [exact initial_dom | exact HSp]
      | exact HSu
      | cbn [care_instructions set_care_instructions];
        rewrite lookup_insert_ne by exact Hne1; reflexivity
      | exact Hsu ].
  cbn [mbind result_bind app for_each]. rewrite Hblank. cbn [mbind result_bind].
  (* Monsoon *)
  rewrite for_each_app.
  rewrite (run_format_section _ (Some Summer) Monsoon [] mo);
    [ | cbn [care_instructions set_care_instructions];
        do 2 (apply season_insert_dom; [|assumption]); exact initial_dom
      | exact HMo
      | cbn [care_instructions set_care_instructions];
        rewrite lookup_insert_ne by exact Hne4;
        rewrite lookup_insert_ne by exact Hne2; reflexivity
      | exact Hmo ].
  cbn [mbind result_bind app for_each]. rewrite Hblank. cbn [mbind result_bind].
  (* Winter *)
  rewrite (run_format_section _ (Some Monsoon) Winter [] wi);
    [ | cbn [care_instructions set_care_instructions];
        do 3 (apply season_insert_dom; [|assumption]); exact initial_dom
      | exact HWi
      | cbn [care_instructions set_care_instructions];
        rewrite lookup_insert_ne by exact Hne6;
        rewrite lookup_insert_ne by exact Hne5;
        rewrite lookup_insert_ne by exact Hne3; reflexivity
      | exact Hwi ].
  reflexivity.
Qed.

(** X10: a response in the format the prompt asks for is read back as
    written.  If the lines of the text that are not blank are, up to the
    whitespace around them, the two name lines and the four season blocks of
    the format, with names that have no whitespace at either end, a Hindi
    name that is none of the sentinels, and tips that have no whitespace at
    either end, do not begin with the bullet marker and hold no Hindi-name
    phrase, then the result has exactly these names and, for every season,
    exactly these tips in their order. *)
Theorem requested_format_round_trip (text cn hn : str) (sp su mo wi : list str) :
  content_lines (split LF None text)
  = content_lines (format_lines cn hn sp su mo wi) ->
  strip cn = cn -> strip hn = hn -> (lower hn ∉ absent_names) ->
  Forall plain_tip sp -> Forall plain_tip su ->
  Forall plain_tip mo -> Forall plain_tip wi ->
  exists info,
    process_gemini_response text = Ok info /\
    common_name info = cn /\ hindi_name info = hn /\
    care_instructions info !! Spring = Some sp /\
    care_instructions info !! Summer = Some su /\
    care_instructions info !! Monsoon = Some mo /\
    care_instructions info !! Winter = Some wi.
Proof.
  intros Hlines Hcn Hhn Habs Hsp Hsu Hmo Hwi.
  eexists. split.
  - unfold process_gemini_response, process_lines.
    rewrite run_content, Hlines, <- run_content.
    rewrite (run_format_lines cn hn sp su mo wi) by assumption.
    reflexivity.
  - cbn [fst common_name hindi_name care_instructions].
    split; [reflexivity|]. split; [reflexivity|].
    split; [|split; [|split]].
    + rewrite !lookup_insert_ne by discriminate. apply lookup_insert_eq.
    + rewrite !lookup_insert_ne by discriminate. apply lookup_insert_eq.
    + rewrite !lookup_insert_ne by discriminate. apply lookup_insert_eq.
    + apply lookup_insert_eq.
Qed.

Lemma requested_format_round_trip_witness :
  exists info,
    process_gemini_response prompt_format_block = Ok info /\
    common_name info = u "[Plant's common name]" /\
    hindi_name info
    = u "[Hindi name or statement about lack of common Hindi name]" /\
    care_instructions info !! Spring = Some tip_placeholders /\
    care_instructions info !! Summer = Some tip_placeholders /\
    care_instructions info !! Monsoon = Some tip_placeholders /\
    care_instructions info !! Winter = Some tip_placeholders.
Proof.
  apply (requested_format_round_trip prompt_format_block
           (u "[Plant's common name]")
           (u "[Hindi name or statement about lack of common Hindi name]")
           tip_placeholders tip_placeholders tip_placeholders tip_placeholders).
  - vm_compute. reflexivity.
  - vm_compute. reflexivity.
  - vm_compute. reflexivity.
  - intros Hin. vm_compute in Hin.
    repeat (apply elem_of_cons in Hin as [Hin | Hin]; [discriminate|]).
    apply elem_of_nil in Hin. exact Hin.
  - repeat constructor; vm_compute; reflexivity.
  - repeat constructor; vm_compute; reflexivity.
  - repeat constructor; vm_compute; reflexivity.
  - repeat constructor; vm_compute; reflexivity.
Defined.

(** ** The new size, exactly *)

Module Float64Exact.
Import Float64 Float64Facts.

Lemma shr_1_at_least (mrs : shr_record) (L : Z) :
  2 * L <= shr_m mrs -> L <= shr_m (shr_1 mrs).
Proof.
  destruct mrs as [m r s]. simpl.
  destruct m as [|[p|p|]|[p|p|]]; simpl; lia.
Qed.

Lemma iter_shr_1_at_least (p : positive) (mrs : shr_record) (L : Z) :
  2 ^ Zpos p * L <= shr_m mrs -> L <= shr_m (SpecFloat.iter_pos shr_1 p mrs).
Proof.
  revert mrs L. induction p as [p IH|p IH|]; intros mrs L H; simpl SpecFloat.iter_pos.
  - apply IH, IH, shr_1_at_least. rewrite pow2_double_succ in H.
    replace (2 * (2 ^ Zpos p * (2 ^ Zpos p * L)))
      with (2 * (2 ^ Zpos p * 2 ^ Zpos p) * L) by ring. exact H.
  - apply IH, IH. rewrite pow2_double in H.
    replace (2 ^ Zpos p * (2 ^ Zpos p * L))
      with (2 ^ Zpos p * 2 ^ Zpos p * L) by ring. exact H.
  - apply shr_1_at_least. exact H.
Qed.

Lemma shr_record_of_loc_m (m : Z) (l : location) :
  shr_m (shr_record_of_loc m l) = m.
Proof. destruct l as [|[]]; reflexivity. Qed.

Lemma shr_fexp_at_least (Y E m e : Z) (l : location) :
  (shr_fexp prec emax m e l).2 <= E ->
  bound_at Y E e <= m ->
  bound_at Y E (shr_fexp prec emax m e l).2 <= shr_m (shr_fexp prec emax m e l).1.
Proof.
  unfold shr_fexp, shr.
  destruct (fexp prec emax (Zdigits2 m + e) - e) as [|n|n]; simpl fst; simpl snd;
    intros HE Hm; try (rewrite shr_record_of_loc_m; exact Hm).
  apply iter_shr_1_at_least. rewrite shr_record_of_loc_m.
  rewrite <- bound_at_shift; [exact Hm | lia | lia].
Qed.

Lemma round_nearest_even_ge (mrs : shr_record) :
  shr_m mrs <= round_nearest_even (shr_m mrs) (loc_of_shr_record mrs).
Proof.
  destruct mrs as [m [] []]; simpl; try destruct (IntDef.Z.even m); lia.
Qed.

(** Rounding to nearest stays between two bounds that lie on the grid of
    the result and enclose the exact value. *)
Lemma binary_round_aux_between (Yl El Yu Eu m e : Z) (l : location) :
  below (shr_record_of_loc m l) (bound_at Yu Eu e) ->
  0 <= Yu < 2 ^ 52 -> e <= Eu -> Eu <= El ->
  SpecFloat.emin prec emax <= Eu <= emax - prec ->
  0 < Yl -> bound_at Yl El e <= m ->
  exists m' e',
    binary_round_aux prec emax false m e l = S754_finite false m' e' /\
    (e <= e' <= Eu) /\
    bound_at Yl El e' <= Zpos m' <= bound_at Yu Eu e'.
Proof.
  intros Hb HY He HEl [Hemin Hemax] HYl Hlow. unfold binary_round_aux.
  destruct (shr_fexp_below Yu Eu m e l Hb HY He Hemin) as [He1 Hb1].
  pose proof (shr_fexp_at_least Yl El m e l ltac:(lia) Hlow) as Hl1.
  destruct (shr_fexp prec emax m e l) as [mrs1 e1]. simpl fst in *. simpl snd in *.
  pose proof (round_nearest_even_ge mrs1) as Hge.
  apply round_nearest_even_below in Hb1.
  set (m1 := round_nearest_even (shr_m mrs1) (loc_of_shr_record mrs1)) in *.
  assert (Hb2 : below (shr_record_of_loc m1 loc_Exact) (bound_at Yu Eu e1)).
  { split; simpl; [exact Hb1 | discriminate]. }
  destruct (shr_fexp_below Yu Eu m1 e1 loc_Exact Hb2 HY) as [He2 [Hb3 _]]; [lia|lia|].
  pose proof (shr_fexp_at_least Yl El m1 e1 loc_Exact ltac:(lia) ltac:(lia)) as Hl2.
  destruct (shr_fexp prec emax m1 e1 loc_Exact) as [mrs2 e2]. simpl fst in *. simpl snd in *.
  assert (Hpos : 0 < bound_at Yl El e2).
  { unfold bound_at. apply Z.mul_pos_pos; [lia | apply Z.pow_pos_nonneg; lia]. }
  destruct (shr_m mrs2) as [|m2|m2]; try lia.
  exists m2, e2. replace (e2 <=? emax - prec) with true by (symmetry; apply Z.leb_le; lia).
  split; [reflexivity|]. split; lia.
Qed.


Lemma SFdiv_between (Yl El Yu Eu : Z) (m1 m2 : positive) (e1 e2 : Z) :
  Zpos (digits2_pos m1) = 53 -> Zpos (digits2_pos m2) = 53 ->
  SpecFloat.emin prec emax <= e1 - e2 - 53 <= Eu -> Eu <= El ->
  0 <= Yu < 2 ^ 52 -> Eu <= emax - prec -> 0 < Yl ->
  Zpos m1 * 2 ^ 53 <= bound_at Yu Eu (e1 - e2 - 53) * Zpos m2 ->
  bound_at Yl El (e1 - e2 - 53) * Zpos m2 <= Zpos m1 * 2 ^ 53 ->
  exists m e,
    SFdiv prec emax (S754_finite false m1 e1) (S754_finite false m2 e2)
    = S754_finite false m e /\
    (e1 - e2 - 53 <= e <= Eu) /\
    bound_at Yl El e <= Zpos m <= bound_at Yu Eu e.
Proof.
  intros Hd1 Hd2 [Hmin He] HEl HY Hmax HYl Hup Hlow.
  rewrite (SFdiv_finite _ _ _ _ Hd1 Hd2 Hmin).
  set (a := Zpos m1 * 2 ^ 53) in *.
  pose proof (Z.div_mod a (Zpos m2) ltac:(lia)) as Hdm.
  pose proof (Z.mod_pos_bound a (Zpos m2) ltac:(lia)) as Hr.
  assert (Ha : 0 <= a) by (unfold a; lia).
  pose proof (Z.div_pos a (Zpos m2) Ha ltac:(lia)) as Hq.
  apply binary_round_aux_between; try lia.
  - set (B := bound_at Yu Eu (e1 - e2 - 53)) in *. split.
    + rewrite new_location_m. split; [exact Hq|]. nia.
    + rewrite new_location_inexact, new_location_m, negb_true_iff, Z.eqb_neq.
      intros Hne. nia.
  - apply Z.div_le_lower_bound; lia.
Qed.

Lemma SFmul_between (Yl El Yu Eu : Z) (m1 m2 : positive) (e1 e2 : Z) :
  e1 + e2 <= Eu -> Eu <= El ->
  SpecFloat.emin prec emax <= Eu <= emax - prec ->
  0 <= Yu < 2 ^ 52 -> 0 < Yl ->
  Zpos m1 * Zpos m2 <= bound_at Yu Eu (e1 + e2) ->
  bound_at Yl El (e1 + e2) <= Zpos m1 * Zpos m2 ->
  exists m e,
    SFmul prec emax (S754_finite false m1 e1) (S754_finite false m2 e2)
    = S754_finite false m e /\
    (e1 + e2 <= e <= Eu) /\
    bound_at Yl El e <= Zpos m <= bound_at Yu Eu e.
Proof.
  intros He HEl HE HY HYl Hup Hlow. unfold SFmul. simpl xorb.
  apply binary_round_aux_between; try assumption.
  split; simpl; [lia | discriminate].
Qed.

(** The ratio [300 / M] as a float lies within [2^-K] of the exact
    quotient, for a [K] with [M < 2^(K - 42)]. *)
Lemma ratio_between (M : Z) :
  300 < M <= 2 ^ 31 ->
  exists K m e,
    (51 <= K <= 74) /\ M < 2 ^ (K - 42) /\
    Prim2SF (float_of_int 300 / float_of_int M) = S754_finite false m e /\
    e <= - K /\
    bound_at (300 * 2 ^ K / M) (- K) e <= Zpos m
    <= bound_at (300 * 2 ^ K / M + 1) (- K) e.
Proof.
  intros HM. rewrite FloatAxioms.div_spec. unfold SF64div.
  destruct (float_of_int_pos M) as (mM & eM & -> & HdM & HeM & HmM); [lia|].
  replace (Prim2SF (float_of_int 300))
    with (S754_finite false 5277655813324800 (-44)) by (vm_compute; reflexivity).
  pose proof (digits2_pos_spec mM) as [Hlo Hhi]. rewrite HdM in Hlo, Hhi.
  change (53 - 1) with 52 in Hlo.
  assert (Hp : 0 < 2 ^ (- eM)) by (apply Z.pow_pos_nonneg; lia).
  assert (HMlo : 2 ^ (52 + eM) <= M).
  { apply (Z.mul_le_mono_pos_r _ _ (2 ^ (- eM))); [exact Hp|].
    rewrite <- Z.pow_add_r by lia. replace (52 + eM + - eM) with 52 by lia. lia. }
  assert (HMhi : M < 2 ^ (53 + eM)).
  { apply (Z.mul_lt_mono_pos_r (2 ^ (- eM))); [exact Hp|].
    rewrite <- Z.pow_add_r by lia. replace (53 + eM + - eM) with 53 by lia. lia. }
  assert (HeM' : -44 <= eM <= -21).
  { split.
    - destruct (Z.le_gt_cases (-44) eM) as [Hok|Hbad]; [exact Hok|].
      assert (2 ^ (53 + eM) <= 2 ^ 8) by (apply Z.pow_le_mono_r; lia).
      change (2 ^ 8) with 256 in *. lia.
    - destruct (Z.le_gt_cases eM (-21)) as [Hok|Hbad]; [exact Hok|].
      assert (2 ^ 32 <= 2 ^ (52 + eM)) by (apply Z.pow_le_mono_r; lia).
      change (2 ^ 32) with 4294967296 in *. change (2 ^ 31) with 2147483648 in *. lia. }
  set (K := 95 + eM).
  set (a := 300 * 2 ^ K).
  assert (Ha : 0 < a) by (unfold a; apply Z.mul_pos_pos; [lia | apply Z.pow_pos_nonneg; lia]).
  pose proof (Z.div_mod a M ltac:(lia)) as Hdm.
  pose proof (Z.mod_pos_bound a M ltac:(lia)) as Hr.
  assert (HK : 2 ^ K = 2 ^ 43 * 2 ^ (52 + eM)).
  { rewrite <- Z.pow_add_r by lia. f_equal. lia. }
  assert (HK' : 2 ^ K = 2 ^ 42 * 2 ^ (53 + eM)).
  { rewrite <- Z.pow_add_r by lia. f_equal. lia. }
  assert (Hp52 : 0 < 2 ^ (52 + eM)) by (apply Z.pow_pos_nonneg; lia).
  assert (Hqhi : a / M <= 300 * 2 ^ 43).
  { apply Z.div_le_upper_bound; [lia|]. unfold a. rewrite HK. nia. }
  assert (Hqlo : 0 < a / M).
  { apply Z.div_str_pos. split; [lia|]. unfold a. rewrite HK'. nia. }
  assert (H4 : forall Y, bound_at Y (- K) (-44 - eM - 53) = 4 * Y).
  { intros Y. unfold bound_at, K.
    replace (- (95 + eM) - (-44 - eM - 53)) with 2 by lia. change (2 ^ 2) with 4. ring. }
  assert (Ha4 : 5277655813324800 * 2 ^ 53 = 4 * a * 2 ^ (- eM)).
  { unfold a, K. replace (4 * (300 * 2 ^ (95 + eM)) * 2 ^ (- eM))
      with (1200 * (2 ^ (95 + eM) * 2 ^ (- eM))) by ring.
    rewrite <- Z.pow_add_r by lia. replace (95 + eM + - eM) with 95 by lia.
    reflexivity. }
  assert (Hrange : SpecFloat.emin prec emax <= -44 - eM - 53 <= - K)
    by (unfold SpecFloat.emin, prec, emax, K; lia).
  assert (HYu : 0 <= a / M + 1 < 2 ^ 52).
  { split; [lia|]. change (2 ^ 52) with (512 * 2 ^ 43). lia. }
  assert (Hmax : - K <= emax - prec) by (unfold emax, prec, K; lia).
  assert (Hup : 5277655813324800 * 2 ^ 53
                <= bound_at (a / M + 1) (- K) (-44 - eM - 53) * Zpos mM).
  { rewrite H4, HmM, Ha4. nia. }
  assert (Hlow : bound_at (a / M) (- K) (-44 - eM - 53) * Zpos mM
                 <= 5277655813324800 * 2 ^ 53).
  { rewrite H4, HmM, Ha4. nia. }
  destruct (SFdiv_between (a / M) (- K) (a / M + 1) (- K)
              5277655813324800 mM (-44) eM eq_refl HdM Hrange
              (Z.le_refl _) HYu Hmax Hqlo Hup Hlow) as (m & e & Hr' & He & Hm).
  exists K, m, e. split; [unfold K; lia|]. split.
  { unfold K. replace (95 + eM - 42) with (53 + eM) by lia. exact HMhi. }
  split; [exact Hr'|]. split; [lia | exact Hm].
Qed.


(** *** Integer inequalities behind the bounds on the product *)

Lemma quotient_upper (d M k cl P C r r' : Z) :
  0 <= d <= M -> 0 < P ->
  300 * P = M * cl + r -> 0 <= r < M ->
  300 * d = M * k + r' -> 0 <= r' < M ->
  d * M + C * M <= P ->
  d * (cl + 1) + C <= (k + 1) * P.
Proof.
  intros Hd HP Hcl Hr Hk Hr' HdM.
  apply (Z.mul_le_mono_pos_r _ _ M); [lia|].
  assert (H1 : d * cl * M = d * (300 * P) - d * r) by (rewrite Hcl; ring).
  assert (H2 : d * (300 * P) = M * k * P + r' * P).
  { replace (d * (300 * P)) with (300 * d * P) by ring. rewrite Hk. ring. }
  assert (H3 : r' * P <= (M - 1) * P) by (apply Z.mul_le_mono_nonneg_r; lia).
  assert (H4 : 0 <= d * r) by (apply Z.mul_nonneg_nonneg; lia).
  replace ((d * (cl + 1) + C) * M) with (d * cl * M + (d * M + C * M)) by ring.
  replace ((k + 1) * P * M) with (M * k * P + (M - 1) * P + P) by ring.
  lia.
Qed.

Lemma quotient_lower (d M k cl P C r r' : Z) :
  0 <= d <= M -> M <= C -> 0 < P -> 0 <= k ->
  300 * P = M * cl + r -> 0 <= r < M ->
  300 * d = M * k + r' -> 0 <= r' ->
  k * P - C <= d * cl.
Proof.
  intros Hd HC HP Hk0 Hcl Hr Hk Hr'.
  apply (Z.mul_le_mono_pos_r _ _ M); [lia|].
  assert (H1 : d * cl * M = d * (300 * P) - d * r) by (rewrite Hcl; ring).
  assert (H2 : d * (300 * P) = M * k * P + r' * P).
  { replace (d * (300 * P)) with (300 * d * P) by ring. rewrite Hk. ring. }
  assert (H3 : 0 <= r' * P) by (apply Z.mul_nonneg_nonneg; lia).
  assert (H4 : d * r <= d * M) by (apply Z.mul_le_mono_nonneg_l; lia).
  assert (H5 : d * M <= C * M) by (apply Z.mul_le_mono_nonneg_r; lia).
  replace ((k * P - C) * M) with (M * k * P - C * M) by ring.
  lia.
Qed.

Lemma quotient_lower_strict (d M k cl P r r' : Z) :
  0 <= d <= M -> 0 < P -> 0 <= k ->
  300 * P = M * cl + r -> 0 <= r < M ->
  300 * d = M * k + r' -> 1 <= r' ->
  d * M <= P ->
  k * P <= d * cl.
Proof.
  intros Hd HP Hk0 Hcl Hr Hk Hr' HdM.
  apply (Z.mul_le_mono_pos_r _ _ M); [lia|].
  assert (H1 : d * cl * M = d * (300 * P) - d * r) by (rewrite Hcl; ring).
  assert (H2 : d * (300 * P) = M * k * P + r' * P).
  { replace (d * (300 * P)) with (300 * d * P) by ring. rewrite Hk. ring. }
  assert (H3 : 1 * P <= r' * P) by (apply Z.mul_le_mono_nonneg_r; lia).
  assert (H4 : d * r <= d * M) by (apply Z.mul_le_mono_nonneg_l; lia).
  replace (k * P * M) with (M * k * P) by ring.
  lia.
Qed.

Lemma product_upper (d A B C Y cu mr : Z) :
  0 <= d -> 0 < A -> 0 < B -> 0 <= mr <= cu * B -> d * cu <= Y * C ->
  d * A * mr <= Y * (A * B * C).
Proof.
  intros Hd HA HB Hmr HY.
  transitivity (d * A * (cu * B)).
  - apply Z.mul_le_mono_nonneg_l; [apply Z.mul_nonneg_nonneg; lia | lia].
  - replace (d * A * (cu * B)) with (d * cu * (A * B)) by ring.
    replace (Y * (A * B * C)) with (Y * C * (A * B)) by ring.
    apply Z.mul_le_mono_nonneg_r; [apply Z.mul_nonneg_nonneg; lia | exact HY].
Qed.

Lemma product_lower (d A B C Y cl mr : Z) :
  0 <= d -> 0 < A -> 0 < B -> cl * B <= mr -> Y * C <= d * cl ->
  Y * (A * B * C) <= d * A * mr.
Proof.
  intros Hd HA HB Hmr HY.
  transitivity (d * A * (cl * B)).
  - replace (d * A * (cl * B)) with (d * cl * (A * B)) by ring.
    replace (Y * (A * B * C)) with (Y * C * (A * B)) by ring.
    apply Z.mul_le_mono_nonneg_r; [apply Z.mul_nonneg_nonneg; lia | exact HY].
  - apply Z.mul_le_mono_nonneg_l; [apply Z.mul_nonneg_nonneg; lia | lia].
Qed.

(** One side of the new size is the whole part of the exact quotient
    [300 * d / M], or one less when the exact quotient is a whole number. *)
Lemma scaled_dim_exact (d M : Z) :
  300 < M <= 2 ^ 31 -> 0 <= d <= M ->
  exists v,
    int_of_float (float_of_int d * (float_of_int 300 / float_of_int M)) = Ok v /\
    0 <= v /\ (300 * d / M - 1 <= v <= 300 * d / M) /\
    ((300 * d) mod M <> 0 -> v = 300 * d / M).
Proof.
  intros HM Hd. unfold int_of_float. rewrite FloatAxioms.mul_spec. unfold SF64mul.
  destruct (ratio_between M HM) as (K & mr & er & HK & HMK & -> & Her & Hmr).
  set (k := 300 * d / M).
  pose proof (Z.div_mod (300 * d) M ltac:(lia)) as Hkdm.
  pose proof (Z.mod_pos_bound (300 * d) M ltac:(lia)) as Hkr.
  fold k in Hkdm.
  assert (Hk : 0 <= k <= 300).
  { split; [apply Z.div_pos; lia|]. apply Z.div_le_upper_bound; [lia|].
    assert (300 * d <= 300 * M) by lia. lia. }
  destruct (Z.eq_dec d 0) as [Hd0 | Hd0].
  { subst d. replace (Prim2SF (float_of_int 0)) with (S754_zero false)
      by (vm_compute; reflexivity).
    exists 0. simpl. replace k with 0 by (unfold k; reflexivity).
    repeat split; try lia. }
  destruct (float_of_int_pos d) as (md & ed & -> & Hdd & Hed & Hmd); [lia|].
  set (cl := 300 * 2 ^ K / M) in *.
  pose proof (Z.div_mod (300 * 2 ^ K) M ltac:(lia)) as Hcdm.
  pose proof (Z.mod_pos_bound (300 * 2 ^ K) M ltac:(lia)) as Hcr.
  fold cl in Hcdm.
  set (r := (300 * 2 ^ K) mod M) in *. set (r' := (300 * d) mod M) in *.
  set (A := 2 ^ (- ed)). set (B := 2 ^ (- K - er)). set (C := 2 ^ (K - 42)) in *.
  set (P := 2 ^ K) in *.
  assert (HA : 0 < A) by (apply Z.pow_pos_nonneg; lia).
  assert (HB : 0 < B) by (apply Z.pow_pos_nonneg; lia).
  assert (HC : 0 < C) by (apply Z.pow_pos_nonneg; lia).
  assert (HP : 0 < P) by (apply Z.pow_pos_nonneg; lia).
  assert (HKC : P = 2 ^ 42 * C).
  { unfold P, C. rewrite <- Z.pow_add_r by lia. f_equal. lia. }
  assert (HCC : 2 * (C * C) <= P).
  { unfold P, C. rewrite <- Z.pow_add_r, <- Z.pow_succ_r by lia.
    apply Z.pow_le_mono_r; lia. }
  assert (HABC : 2 ^ (-42 - (ed + er)) = A * B * C).
  { unfold A, B, C. rewrite <- !Z.pow_add_r by lia. f_equal. lia. }
  assert (HABK : 2 ^ (0 - (ed + er)) = A * B * P).
  { unfold A, B, P. rewrite <- !Z.pow_add_r by lia. f_equal. lia. }
  unfold bound_at in Hmr. fold B in Hmr.
  assert (Hcl : 0 <= cl) by (apply Z.div_pos; lia).
  assert (HdM : d * M + C * M <= P).
  { assert (d * M <= C * C) by (apply Z.mul_le_mono_nonneg; lia).
    assert (C * M <= C * C) by (apply Z.mul_le_mono_nonneg_l; lia). lia. }
  assert (HCM : 0 <= C * M) by (apply Z.mul_nonneg_nonneg; lia).
  (* the product is at most k + 1 - 2^-42 *)
  assert (Hup : Zpos md * Zpos mr
                <= bound_at ((k + 1) * 2 ^ 42 - 1) (-42) (ed + er)).
  { unfold bound_at. rewrite HABC, Hmd. fold A.
    apply (product_upper d A B C _ (cl + 1)); try lia.
    pose proof (quotient_upper d M k cl P C r r' Hd HP Hcdm Hcr Hkdm Hkr HdM) as H1.
    rewrite HKC in H1. lia. }
  assert (Hemin : SpecFloat.emin prec emax <= -42 <= emax - prec)
    by (unfold SpecFloat.emin, prec, emax; lia).
  assert (HYu : 0 <= (k + 1) * 2 ^ 42 - 1 < 2 ^ 52).
  { change (2 ^ 52) with (1024 * 2 ^ 42). lia. }
  assert (Hee : ed + er <= -42) by lia.
  assert (Htrunc_up : forall mp ep, ep <= -42 ->
            Zpos mp <= bound_at ((k + 1) * 2 ^ 42 - 1) (-42) ep ->
            Zpos mp / 2 ^ (- ep) <= k).
  { intros mp ep Hep Hmp. unfold bound_at in Hmp.
    assert (HD : 0 < 2 ^ (-42 - ep)) by (apply Z.pow_pos_nonneg; lia).
    assert (H2 : 2 ^ (- ep) = 2 ^ 42 * 2 ^ (-42 - ep)).
    { rewrite <- Z.pow_add_r by lia. f_equal. lia. }
    apply Z.lt_succ_r, Z.div_lt_upper_bound; [lia|]. rewrite H2.
    set (D := 2 ^ (-42 - ep)) in *.
    replace (2 ^ 42 * D * Z.succ k) with ((k + 1) * 2 ^ 42 * D) by ring.
    replace (((k + 1) * 2 ^ 42 - 1) * D) with ((k + 1) * 2 ^ 42 * D - D) in Hmp by ring.
    lia. }
  destruct (Z.eq_dec k 0) as [Hk0 | Hk0].
  { destruct (SFmul_le _ _ md mr ed er Hee Hemin HYu Hup)
      as [-> | (mp & ep & -> & Hep & Hmp)].
    - exists 0. simpl. repeat split; lia.
    - simpl int_of_SF.
      replace (0 <=? ep) with false by (symmetry; apply Z.leb_gt; lia).
      simpl cond_Zopp. eexists. split; [reflexivity|].
      pose proof (Htrunc_up mp ep ltac:(lia) Hmp) as Hv.
      assert (0 <= Zpos mp / 2 ^ (- ep)).
      { apply Z.div_pos; [lia | apply Z.pow_pos_nonneg; lia]. }
      repeat split; lia. }
  (* k >= 1: the product is at least k - 2^-42 *)
  assert (Hlow : bound_at (k * 2 ^ 42 - 1) (-42) (ed + er) <= Zpos md * Zpos mr).
  { unfold bound_at. rewrite HABC, Hmd. fold A.
    apply (product_lower d A B C _ cl); try lia.
    pose proof (quotient_lower d M k cl P C r r' Hd ltac:(lia) HP ltac:(lia)
                  Hcdm Hcr Hkdm ltac:(lia)) as H1.
    rewrite HKC in H1. lia. }
  destruct (SFmul_between (k * 2 ^ 42 - 1) (-42) _ _ md mr ed er
              Hee (Z.le_refl _) Hemin HYu ltac:(lia) Hup Hlow)
    as (mp & ep & Hp & Hep & Hmpl & Hmpu).
  rewrite Hp. simpl int_of_SF.
  replace (0 <=? ep) with false by (symmetry; apply Z.leb_gt; lia).
  simpl cond_Zopp. eexists. split; [reflexivity|].
  pose proof (Htrunc_up mp ep ltac:(lia) Hmpu) as Hv.
  assert (HD : 0 < 2 ^ (-42 - ep)) by (apply Z.pow_pos_nonneg; lia).
  assert (H2e : 2 ^ (- ep) = 2 ^ 42 * 2 ^ (-42 - ep)).
  { rewrite <- Z.pow_add_r by lia. f_equal. lia. }
  assert (Hpe : 0 < 2 ^ (- ep)) by (apply Z.pow_pos_nonneg; lia).
  assert (Hvl : k - 1 <= Zpos mp / 2 ^ (- ep)).
  { apply Z.div_le_lower_bound; [lia|]. unfold bound_at in Hmpl. rewrite H2e.
    set (D := 2 ^ (-42 - ep)) in *.
    replace (2 ^ 42 * D * (k - 1)) with (k * 2 ^ 42 * D - 2 ^ 42 * D) by ring.
    replace ((k * 2 ^ 42 - 1) * D) with (k * 2 ^ 42 * D - D) in Hmpl by ring.
    assert (D <= 2 ^ 42 * D) by lia. lia. }
  split; [lia|]. split; [lia|].
  intros Hrem.
  assert (Hlow' : bound_at k 0 (ed + er) <= Zpos md * Zpos mr).
  { unfold bound_at. rewrite HABK, Hmd. fold A.
    apply (product_lower d A B P _ cl); try lia.
    apply (quotient_lower_strict d M k cl P r r'); try assumption; lia. }
  assert (H0max : -42 <= 0) by lia.
  destruct (SFmul_between k 0 _ _ md mr ed er
              Hee H0max Hemin HYu ltac:(lia) Hup Hlow')
    as (mp' & ep' & Hp' & _ & Hmpl' & _).
  rewrite Hp in Hp'. injection Hp' as <- <-.
  assert (k <= Zpos mp / 2 ^ (- ep)).
  { apply Z.div_le_lower_bound; [lia|]. unfold bound_at in Hmpl'.
    replace (0 - ep) with (- ep) in Hmpl' by lia. lia. }
  lia.
Qed.

End Float64Exact.

(** ** The image normaliser: the new size exactly *)

(** X11: each side of the new size is the whole part of the exact
    [300 * side / longer side], or one less when that quotient is a whole
    number; so the longer side becomes 299 or 300. *)
Theorem new_size_exact (w h : Z) :
  0 <= w -> 0 <= h -> 300 < Z.max w h <= 2 ^ 31 ->
  exists w' h',
    new_size (w, h) = Ok (w', h') /\
    (300 * w / Z.max w h - 1 <= w' <= 300 * w / Z.max w h) /\
    (300 * h / Z.max w h - 1 <= h' <= 300 * h / Z.max w h) /\
    ((300 * w) mod Z.max w h <> 0 -> w' = 300 * w / Z.max w h) /\
    ((300 * h) mod Z.max w h <> 0 -> h' = 300 * h / Z.max w h) /\
    (299 <= Z.max w' h' <= 300).
Proof.
  intros Hw Hh HM. unfold new_size, true_div. cbn [fst snd].
  replace (Z.max w h =? 0) with false by (symmetry; apply Z.eqb_neq; lia).
  cbn [mbind result_bind]. unfold max_size.
  destruct (Float64Exact.scaled_dim_exact w (Z.max w h) HM)
    as (w' & -> & Hw0 & Hwk & Hwr); [lia|].
  destruct (Float64Exact.scaled_dim_exact h (Z.max w h) HM)
    as (h' & -> & Hh0 & Hhk & Hhr); [lia|].
  exists w', h'. cbn [mbind result_bind].
  split; [reflexivity|]. split; [exact Hwk|]. split; [exact Hhk|].
  split; [exact Hwr|]. split; [exact Hhr|].
  assert (Hq : forall d, 0 <= d <= Z.max w h -> 300 * d / Z.max w h <= 300).
  { intros d Hd. apply Z.div_le_upper_bound; [lia|].
    assert (300 * d <= 300 * Z.max w h) by lia. lia. }
  assert (Hfull : 300 * Z.max w h / Z.max w h = 300).
  { apply Z.div_mul. lia. }
  pose proof (Hq w ltac:(lia)) as Hqw. pose proof (Hq h ltac:(lia)) as Hqh.
  destruct (Z.max_spec w h) as [[_ Hmax] | [_ Hmax]]; rewrite Hmax in *; lia.
Qed.

Lemma new_size_exact_witness :
  exists w' h',
    new_size (1920, 1080) = Ok (w', h') /\
    (300 * 1920 / Z.max 1920 1080 - 1 <= w' <= 300 * 1920 / Z.max 1920 1080) /\
    (300 * 1080 / Z.max 1920 1080 - 1 <= h' <= 300 * 1080 / Z.max 1920 1080) /\
    ((300 * 1920) mod Z.max 1920 1080 <> 0 -> w' = 300 * 1920 / Z.max 1920 1080) /\
    ((300 * 1080) mod Z.max 1920 1080 <> 0 -> h' = 300 * 1080 / Z.max 1920 1080) /\
    (299 <= Z.max w' h' <= 300).
Proof.
  apply new_size_exact; [lia | lia |]. split; [reflexivity | discriminate].
Defined.

Section ThinImages.
Context {image : Type} `{Pillow image}.

(** X12: if [resize] refuses a size with a side below one, as Pillow does,
    [prepare_image] fails on every image whose longer side exceeds 300
    and is more than 300 times the shorter side: the shorter side scales
    to zero, [resize] raises, and the result is [None] with one message. *)
Theorem prepare_image_thin (im : image) (w h : Z) :
  (forall im0 size filter, size.1 < 1 \/ size.2 < 1 ->
     exists e, im_resize im0 size filter = Raise e) ->
  im_size im = (w, h) -> 0 <= w -> 0 <= h ->
  300 < Z.max w h <= 2 ^ 31 ->
  300 * Z.min w h < Z.max w h ->
  exists msg, prepare_image im = ([st_error msg], Ok None).
Proof.
  intros Hrefuse Hsize Hw Hh HM Hthin.
  unfold prepare_image, prepare_image_try, resize_step.
  rewrite Hsize. cbn [fst snd]. unfold max_size.
  replace (300 <? Z.max w h) with true by (symmetry; apply Z.ltb_lt; lia).
  unfold new_size, true_div. cbn [fst snd].
  replace (Z.max w h =? 0) with false by (symmetry; apply Z.eqb_neq; lia).
  cbn [mbind result_bind]. unfold max_size.
  destruct (Float64Exact.scaled_dim_exact w (Z.max w h) HM)
    as (w' & -> & Hw0 & Hwk & _); [lia|].
  destruct (Float64Exact.scaled_dim_exact h (Z.max w h) HM)
    as (h' & -> & Hh0 & Hhk & _); [lia|].
  cbn [mbind result_bind].
  assert (Hzero : w' < 1 \/ h' < 1).
  { destruct (Z.min_spec w h) as [[_ Hmin] | [_ Hmin]]; rewrite Hmin in Hthin.
    - left. assert (300 * w / Z.max w h = 0) by (apply Z.div_small; lia). lia.
    - right. assert (300 * h / Z.max w h = 0) by (apply Z.div_small; lia). lia. }
  destruct (Hrefuse im (w', h') LANCZOS Hzero) as [e ->].
  eexists. reflexivity.
Qed.
End ThinImages.

Lemma prepare_image_thin_witness :
  exists msg, prepare_image thin_strip = ([st_error msg], Ok None).
Proof.
  apply (prepare_image_thin thin_strip 1000 1).
  - intros im0 size filter Hsize. unfold im_resize, toy_pillow, toy_resize.
    destruct (negb (toy_decodes im0)); [eauto|].
    replace ((size.1 <? 1) || (size.2 <? 1)) with true; [eauto|].
    symmetry. apply orb_true_iff. rewrite !Z.ltb_lt. exact Hsize.
  - reflexivity.
  - lia.
  - lia.
  - split; [reflexivity | discriminate].
  - reflexivity.
Defined.
